(** * HappyChat: the sync-driven state layer of [src/App.jsx]

    A shallow embedding of the pure helpers and of the state handlers of the
    [App] component, followed by the properties of the specification that
    they decide.

    Conventions of the embedding.
    - A JavaScript string is a [string]; each [ascii] stands for one UTF-16
      code unit in the range U+0000..U+00FF (Latin-1), which is where the
      white space and letter-case tables below are exact.  The room filter
      is written over an arbitrary lower-casing function, and only its
      reading as a case-insensitive match uses the table.
    - [null] / [undefined] are [None]; a value used in a boolean position
      goes through [truthy], so the empty string is falsy as in the source.
      The body of a message comes from the content of a remote event and
      may be no string at all: it is a [JsValue].
    - The protocol client is an external collaborator: a [Client] is the
      snapshot of its room store at the moment a handler reads it.
    - React state is the record [AppState]; a handler is a function on it.
      The setters of a handler give the render React commits next; the
      effects whose dependencies changed run after that render and give
      the following one.  [commit] takes the two together, and the
      properties that are about the render in between name it by its
      setter. *)

From Stdlib Require Import Bool Arith NArith ZArith Lia List.
From Stdlib Require Import Ascii String.
From Stdlib Require Import Sorting.Sorted Sorting.Permutation.
Import ListNotations.

Local Open Scope list_scope.
Local Open Scope string_scope.

(* ------------------------------------------------------------------ *)
(** ** The string primitives of the language that the source calls      *)
(* ------------------------------------------------------------------ *)

Module JS.

(** [WhiteSpace] and [LineTerminator] code units below U+0100:
    TAB, LF, VT, FF, CR, SP and NBSP. *)
Definition isWhiteSpace (c : ascii) : bool :=
  match N_of_ascii c with
  | 9%N | 10%N | 11%N | 12%N | 13%N | 32%N | 160%N => true
  | _ => false
  end.

(** [s.trimStart()] *)
Fixpoint trimStart (s : string) : string :=
  match s with
  | EmptyString => EmptyString
  | String c r => if isWhiteSpace c then trimStart r else s
  end.

(** [s.trimEnd()] *)
Fixpoint trimEnd (s : string) : string :=
  match s with
  | EmptyString => EmptyString
  | String c r =>
      match trimEnd r with
      | EmptyString => if isWhiteSpace c then EmptyString
                       else String c EmptyString
      | r' => String c r'
      end
  end.

(** [s.trim()] *)
Definition trim (s : string) : string := trimEnd (trimStart s).

(** Whether the last code unit of [s] is white space, that is, whether
    [trimEnd] would shorten a non-empty [s]. *)
Fixpoint endsWithWhiteSpace (s : string) : bool :=
  match s with
  | EmptyString => false
  | String c EmptyString => isWhiteSpace c
  | String _ r => endsWithWhiteSpace r
  end.

(** [s.startsWith(p)] *)
Definition startsWith (s p : string) : bool := String.prefix p s.

(** [s.includes(q)] *)
Fixpoint includes (s q : string) : bool :=
  String.prefix q s ||
  match s with
  | EmptyString => false
  | String _ r => includes r q
  end.

(** [s.split(sep)] for a separator of one code unit. *)
Fixpoint split (s : string) (sep : ascii) : list string :=
  match s with
  | EmptyString => [EmptyString]
  | String c r =>
      if Ascii.eqb c sep then EmptyString :: split r sep
      else match split r sep with
           | h :: t => String c h :: t
           | [] => [String c EmptyString]
           end
  end.

(** [s.slice(n)] for [n >= 0]. *)
Fixpoint slice (s : string) (n : nat) : string :=
  match n, s with
  | O, _ => s
  | S _, EmptyString => EmptyString
  | S k, String _ r => slice r k
  end.

(** Lower-case mapping of one code unit: A-Z, and the Latin-1 capitals
    U+00C0..U+00DE except the multiplication sign U+00D7. *)
Definition toLowerChar (c : ascii) : ascii :=
  let n := N_of_ascii c in
  if ((65 <=? n) && (n <=? 90))%N
     || ((192 <=? n) && (n <=? 222) && negb (n =? 215))%N
  then ascii_of_N (n + 32) else c.

(** [s.toLowerCase()] for text within Latin-1, where the mapping goes unit
    by unit.  Beyond Latin-1 the mapping of the language depends on the
    neighbouring units, which is why the room filter takes its lower-casing
    as an argument. *)
Fixpoint toLowerCase (s : string) : string :=
  match s with
  | EmptyString => EmptyString
  | String c r => String (toLowerChar c) (toLowerCase r)
  end.

(** Truthiness of a string: only the empty string is falsy. *)
Definition truthyStr (s : string) : bool :=
  match s with EmptyString => false | String _ _ => true end.

(** Truthiness of a value that is a string, [null] or [undefined]. *)
Definition truthy (v : option string) : bool :=
  match v with Some s => truthyStr s | None => false end.

(** [a || b] on such values. *)
Definition or (a b : option string) : option string :=
  if truthy a then a else b.

(** [v || ""] *)
Definition orEmpty (v : option string) : string :=
  match v with Some s => s | None => EmptyString end.

(** [xs.slice(start, end)] on arrays, for non-negative indices. *)
Definition arraySlice {A : Type} (xs : list A) (start stop : nat) : list A :=
  firstn (stop - start) (skipn start xs).

(** [xs.slice(start)] on arrays, for a non-negative index. *)
Definition arraySliceFrom {A : Type} (xs : list A) (start : nat) : list A :=
  skipn start xs.

(** Insertion step of a stable sort: [x], which preceded every element of
    the sorted [l] in the input, stays in front of the elements it ties
    with. *)
Fixpoint insert {A : Type} (cmp : A -> A -> Z) (x : A) (l : list A)
  : list A :=
  match l with
  | [] => [x]
  | y :: t => if (cmp x y <=? 0)%Z then x :: l else y :: insert cmp x t
  end.

(** [xs.slice().sort(cmp)]: the language fixes the result of [sort] for a
    consistent comparator, not the algorithm: the stable arrangement in
    which [cmp a b <= 0] for [a] before [b].  A stable insertion sort
    computes that arrangement. *)
Definition sort {A : Type} (cmp : A -> A -> Z) (xs : list A) : list A :=
  fold_right (insert cmp) [] xs.

End JS.

(* ------------------------------------------------------------------ *)
(** ** helpers                                                          *)
(* ------------------------------------------------------------------ *)

Definition normalizeHomeserver (hs : option string) : string :=
  let v := JS.trim (JS.orEmpty hs) in
  if negb (JS.truthyStr v) then ""
  else if JS.startsWith v "http://" || JS.startsWith v "https://" then v
       else "https://" ++ v.

(** The server part the source reads off the local user id:
    [(myUserId || "").split(":")[1] || "matrix.org"]. *)
Definition myServerOf (myUserId : option string) : string :=
  JS.orEmpty
    (JS.or (nth_error (JS.split (JS.orEmpty myUserId) ":"%char) 1)
           (Some "matrix.org")).

(** The specification's wording of the same part, for comparison with
    [myServerOf]: "the domain portion of myUserId (text after its [:])",
    [None] when the id has no [:]. *)
Fixpoint textAfterColon (s : string) : option string :=
  match s with
  | EmptyString => None
  | String c r => if Ascii.eqb c ":" then Some r else textAfterColon r
  end.

Definition normalizeMxId (input myUserId : option string) : string :=
  let v := JS.trim (JS.orEmpty input) in
  if negb (JS.truthyStr v) then ""
  else if JS.startsWith v "@" && JS.includes v ":" then v
  else
    let myServer := myServerOf myUserId in
    let name := if JS.startsWith v "@" then JS.slice v 1 else v in
    "@" ++ name ++ ":" ++ myServer.

(* ------------------------------------------------------------------ *)
(** ** What the handlers read from the protocol client                  *)
(* ------------------------------------------------------------------ *)

(** A timeline event; [getRoomId] is the room the client filed it under. *)
Record MatrixEvent := {
  getId : string;
  getRoomId : string;
  getType : string;
  getSender : option string;
  contentBody : option string
}.

Module Member.
(** A room member as the typing list reports it; every field may be
    missing. *)
Record t := {
  name : option string;
  rawDisplayName : option string;
  displayName : option string;
  userId : option string
}.
End Member.

(** A value read where the source expects text: nothing ([undefined] or
    [null]), a string, or a value of another type (a number, a boolean, an
    object, an array), of which the source only tests the truthiness and
    the type. *)
Inductive JsValue :=
| Missing
| Text (s : string)
| NotText (truthy : bool).

Module Room.
Record t := {
  roomId : string;
  name : option string;
  (** [getLastActiveTimestamp?.()]: [None] when the method is missing or
      yields no number; timestamps are integers. *)
  getLastActiveTimestamp : option Z;
  (** [getLastLiveEvent?.()?.getContent?.()?.body]: the content of an event
      is what a remote sender put there. *)
  lastLiveBody : JsValue;
  (** [getLiveTimeline().getEvents()] *)
  liveEvents : list MatrixEvent;
  (** [getTypingMembers?.()]; an entry of the list may be [null]. *)
  getTypingMembers : option (list (option Member.t))
}.
End Room.

Module Client.
Record t := { getRooms : list Room.t }.

Definition getRoom (c : t) (id : string) : option Room.t :=
  find (fun r => String.eqb (Room.roomId r) id) (getRooms c).
End Client.

Record Session := {
  baseUrl : string;
  accessToken : string;
  userId : option string;
  deviceId : option string
}.

(* ------------------------------------------------------------------ *)
(** ** App state                                                        *)
(* ------------------------------------------------------------------ *)

(** The [useState] cells of [App], and the persisted session record
    ([localStorage] key [happychat_session]) as [stored]. *)
Record AppState := {
  stored : option Session;
  session : option Session;
  client : option Client.t;
  rooms : list Room.t;
  activeRoomId : option string;
  events : list MatrixEvent;
  message : string;
  query : string;
  isMobile : bool;
  newChatOpen : bool;
  newChatInput : string;
  newChatBusy : bool;
  typingUsers : list string
}.

Definition clearSession (st : AppState) : AppState :=
  {| stored := None; session := session st; client := client st;
     rooms := rooms st; activeRoomId := activeRoomId st; events := events st;
     message := message st; query := query st; isMobile := isMobile st;
     newChatOpen := newChatOpen st; newChatInput := newChatInput st;
     newChatBusy := newChatBusy st; typingUsers := typingUsers st |}.

Definition setSession (v : option Session) (st : AppState) : AppState :=
  {| stored := stored st; session := v; client := client st;
     rooms := rooms st; activeRoomId := activeRoomId st; events := events st;
     message := message st; query := query st; isMobile := isMobile st;
     newChatOpen := newChatOpen st; newChatInput := newChatInput st;
     newChatBusy := newChatBusy st; typingUsers := typingUsers st |}.

Definition setClient (v : option Client.t) (st : AppState) : AppState :=
  {| stored := stored st; session := session st; client := v;
     rooms := rooms st; activeRoomId := activeRoomId st; events := events st;
     message := message st; query := query st; isMobile := isMobile st;
     newChatOpen := newChatOpen st; newChatInput := newChatInput st;
     newChatBusy := newChatBusy st; typingUsers := typingUsers st |}.

Definition setRooms (v : list Room.t) (st : AppState) : AppState :=
  {| stored := stored st; session := session st; client := client st;
     rooms := v; activeRoomId := activeRoomId st; events := events st;
     message := message st; query := query st; isMobile := isMobile st;
     newChatOpen := newChatOpen st; newChatInput := newChatInput st;
     newChatBusy := newChatBusy st; typingUsers := typingUsers st |}.

Definition setActiveRoomId (v : option string) (st : AppState) : AppState :=
  {| stored := stored st; session := session st; client := client st;
     rooms := rooms st; activeRoomId := v; events := events st;
     message := message st; query := query st; isMobile := isMobile st;
     newChatOpen := newChatOpen st; newChatInput := newChatInput st;
     newChatBusy := newChatBusy st; typingUsers := typingUsers st |}.

(** [setEvents] takes an updater; [setEvents(v)] is [setEvents (fun _ => v)]. *)
Definition setEvents (f : list MatrixEvent -> list MatrixEvent)
  (st : AppState) : AppState :=
  {| stored := stored st; session := session st; client := client st;
     rooms := rooms st; activeRoomId := activeRoomId st;
     events := f (events st);
     message := message st; query := query st; isMobile := isMobile st;
     newChatOpen := newChatOpen st; newChatInput := newChatInput st;
     newChatBusy := newChatBusy st; typingUsers := typingUsers st |}.

Definition setMessage (v : string) (st : AppState) : AppState :=
  {| stored := stored st; session := session st; client := client st;
     rooms := rooms st; activeRoomId := activeRoomId st; events := events st;
     message := v; query := query st; isMobile := isMobile st;
     newChatOpen := newChatOpen st; newChatInput := newChatInput st;
     newChatBusy := newChatBusy st; typingUsers := typingUsers st |}.

Definition setTypingUsers (v : list string) (st : AppState) : AppState :=
  {| stored := stored st; session := session st; client := client st;
     rooms := rooms st; activeRoomId := activeRoomId st; events := events st;
     message := message st; query := query st; isMobile := isMobile st;
     newChatOpen := newChatOpen st; newChatInput := newChatInput st;
     newChatBusy := newChatBusy st; typingUsers := v |}.

(** [const myUserId = session?.userId || null] *)
Definition myUserId (st : AppState) : option string :=
  match session st with
  | Some s => JS.or (userId s) None
  | None => None
  end.

(** [client && activeRoomId ? client.getRoom(activeRoomId) : null] *)
Definition activeRoom (st : AppState) : option Room.t :=
  match client st, activeRoomId st with
  | Some c, Some id => if JS.truthyStr id then Client.getRoom c id else None
  | _, _ => None
  end.

(* ------------------------------------------------------------------ *)
(** ** Room registry                                                    *)
(* ------------------------------------------------------------------ *)

(** [r.getLastActiveTimestamp?.() || 0] *)
Definition lastActive (r : Room.t) : Z :=
  match Room.getLastActiveTimestamp r with
  | Some t => if (t =? 0)%Z then 0%Z else t
  | None => 0%Z
  end.

(** The comparator of [updateRooms]: [(a, b) => tb - ta]. *)
Definition byLastActive (a b : Room.t) : Z := (lastActive b - lastActive a)%Z.

(** [c.getRooms().slice().sort(...)] *)
Definition sortedRooms (c : Client.t) : list Room.t :=
  JS.sort byLastActive (Client.getRooms c).

(* ------------------------------------------------------------------ *)
(** ** Typing display                                                   *)
(* ------------------------------------------------------------------ *)

(** [m?.name || m?.rawDisplayName || m?.displayName || m?.userId] *)
Definition typingLabel (m : option Member.t) : option string :=
  match m with
  | None => None
  | Some m =>
      JS.or (Member.name m)
        (JS.or (Member.rawDisplayName m)
           (JS.or (Member.displayName m) (Member.userId m)))
  end.

(** [.filter((n) => n)]: the truthy entries, which are strings. *)
Fixpoint truthyOnly (l : list (option string)) : list string :=
  match l with
  | [] => []
  | n :: t => if JS.truthy n then JS.orEmpty n :: truthyOnly t
              else truthyOnly t
  end.

(** [n !== myUserId] for a string [n]. *)
Definition notMe (me : option string) (n : string) : bool :=
  match me with
  | Some u => negb (String.eqb n u)
  | None => true
  end.

(** The projection both typing paths compute:
    [typing.map(...).filter((n) => n).filter((n) => n !== myUserId)
           .slice(0, 3)]. *)
Definition typingNames (typing : list (option Member.t))
  (me : option string) : list string :=
  JS.arraySlice (filter (notMe me) (truthyOnly (map typingLabel typing))) 0 3.

(** [room.getTypingMembers?.() || []] *)
Definition typingMembersOf (room : Room.t) : list (option Member.t) :=
  match Room.getTypingMembers room with
  | Some l => l
  | None => []
  end.

(* ------------------------------------------------------------------ *)
(** ** Timeline: the active-room effect and the room switch             *)
(* ------------------------------------------------------------------ *)

(** The effect on [activeRoomId, activeRoom, client, myUserId]
    ("When room changes -> refresh events + typing list").  The array that
    [getEvents()] answers is taken as a value, the timeline at the moment
    of the read; the typing members are read without throwing, so the
    [catch] branch of the effect is not entered. *)
Definition activeRoomEffect (st : AppState) : AppState :=
  match activeRoom st, client st with
  | Some room, Some _ =>
      let timeline := Room.liveEvents room in
      let st1 := setEvents (fun _ => timeline) st in
      setTypingUsers (typingNames (typingMembersOf room) (myUserId st)) st1
  | _, _ => setTypingUsers [] (setEvents (fun _ => []) st)
  end.

(** The subscription effect depends on [activeRoomId] too: after a change
    of selection it builds a new client and hands it to [setClient].  The
    commit that follows runs the effect above once more, now reading the
    store of that client. *)
Definition clientReplaced (c : Client.t) (st : AppState) : AppState :=
  activeRoomEffect (setClient (Some c) st).

(** The state part of the subscription effect on
    [session, activeRoomId, isMobile, myUserId] ("Start client from
    session"): without a session it returns at once; with one it hands the
    client [c] that [sdk.createClient] answers to [setClient]. *)
Definition subscriptionEffect (c : Client.t) (st : AppState) : AppState :=
  match session st with
  | None => st
  | Some _ => setClient (Some c) st
  end.

(** The effects that run after the render [rendered] in which
    [activeRoomId] changed.  Both effects read the cells of that render:
    the active-room effect reads the client of [rendered], while the
    client [c] that the subscription effect creates is only handed to
    [setClient].  The next render holds the writes of both. *)
Definition effectsOfSelection (c : Client.t) (rendered : AppState)
  : AppState :=
  subscriptionEffect c (activeRoomEffect rendered).

Definition sameSelection (a b : option string) : bool :=
  match a, b with
  | Some x, Some y => String.eqb x y
  | None, None => true
  | _, _ => false
  end.

(** A handler together with the active-room effect it triggers.  [after]
    is the state the setters of the handler leave, and it is the render
    React commits first.  When the handler left a different value in
    [activeRoomId], the active-room effect runs after that render and
    [commit] is the state it leaves; a setter given the value its cell
    already holds changes nothing and no effect runs.  The change of
    selection also re-runs the subscription effect, whose new client
    enters by [subscriptionEffect] and, in the steps below, by
    [step_store] and [step_client]. *)
Definition commit (before after : AppState) : AppState :=
  if sameSelection (activeRoomId before) (activeRoomId after) then after
  else activeRoomEffect after.

(** A selection made by the presentation layer: [setActiveRoomId(id)]. *)
Definition changeActiveRoom (id : option string) (st : AppState) : AppState :=
  commit st (setActiveRoomId id st).

(* ------------------------------------------------------------------ *)
(** ** The client listeners, closed over the client [c]                 *)
(* ------------------------------------------------------------------ *)

(** A listener reads [activeRoomId], [isMobile] and [myUserId] from the
    render it was subscribed in, [cap]; the listeners are re-subscribed
    whenever one of these changes, so [cap] is the state the listener is
    entered with.  Its setters act on the running state [st]. *)

Definition updateRooms (c : Client.t) (cap st : AppState) : AppState :=
  let rs := sortedRooms c in
  let st1 := setRooms rs st in
  match rs with
  | r0 :: _ =>
      if negb (isMobile cap) && negb (JS.truthy (activeRoomId cap))
      then setActiveRoomId (Some (Room.roomId r0)) st1
      else st1
  | [] => st1
  end.

Definition updateTypingForActive (c : Client.t) (cap st : AppState)
  : AppState :=
  if negb (JS.truthy (activeRoomId cap)) then setTypingUsers [] st
  else
    match Client.getRoom c (JS.orEmpty (activeRoomId cap)) with
    | None => setTypingUsers [] st
    | Some room =>
        setTypingUsers (typingNames (typingMembersOf room) (myUserId cap)) st
    end.

Definition onSync (c : Client.t) (state : string) (st : AppState) : AppState :=
  if String.eqb state "PREPARED"
  then commit st (updateTypingForActive c st (updateRooms c st st))
  else st.

(** [room.roomId !== activeRoomId] *)
Definition otherRoom (room : Room.t) (active : option string) : bool :=
  match active with
  | Some id => negb (String.eqb (Room.roomId room) id)
  | None => true
  end.

(** The updater handed to [setEvents] by [onRoomTimeline]. *)
Definition appendBounded (ev : MatrixEvent) (prev : list MatrixEvent)
  : list MatrixEvent :=
  let next := (prev ++ [ev])%list in
  if Nat.ltb 200 (List.length next)
  then JS.arraySliceFrom next (List.length next - 200)
  else next.

Definition onRoomTimeline (ev : MatrixEvent) (room : option Room.t)
  (toStartOfTimeline : bool) (st : AppState) : AppState :=
  if toStartOfTimeline then st
  else
    match room with
    | None => st
    | Some r =>
        if otherRoom r (activeRoomId st) then st
        else setEvents (appendBounded ev) st
    end.

Definition onRoom (c : Client.t) (st : AppState) : AppState :=
  commit st (updateRooms c st st).

Definition onTyping (c : Client.t) (room : option Room.t) (st : AppState)
  : AppState :=
  match room with
  | None => st
  | Some r =>
      if otherRoom r (activeRoomId st) then st
      else updateTypingForActive c st st
  end.

(* ------------------------------------------------------------------ *)
(** ** logout                                                           *)
(* ------------------------------------------------------------------ *)

(** How a statement completes: normally, or by throwing. *)
Inductive Completion := Normal | Throw.

(** Requests that leave the app. *)
Inductive Request := ServerLogout.

(** [try { body } catch {}] followed by [rest]: the handler is empty, so
    [rest] runs after either completion of [body]. *)
Definition tryCatchThen {S : Type} (body : Completion) (rest : S -> S)
  (s : S) : S :=
  match body with
  | Normal => rest s
  | Throw => rest s
  end.

(** [if (client) await client.logout()]: the request goes out when there is
    a client, and [serverLogout] is how the awaited call settles. *)
Definition logoutAttempt (serverLogout : Completion) (st : AppState)
  : list Request * Completion :=
  match client st with
  | Some _ => ([ServerLogout], serverLogout)
  | None => ([], Normal)
  end.

(** The statements after the [try]. *)
Definition logoutReset (st : AppState) : AppState :=
  setTypingUsers []
    (setMessage ""
       (setEvents (fun _ => [])
          (setActiveRoomId None
             (setRooms []
                (setSession None (setClient None (clearSession st))))))).

(** [logout()]; [resumed] is the state found when the awaited call has
    settled, which other handlers may have changed in the meantime. *)
Definition logout (serverLogout : Completion) (st resumed : AppState)
  : list Request * AppState :=
  let (sent, body) := logoutAttempt serverLogout st in
  (sent, tryCatchThen body logoutReset resumed).

(* ------------------------------------------------------------------ *)
(** ** Room filter                                                      *)
(* ------------------------------------------------------------------ *)

(** [(r.name || r.roomId || "")] *)
Definition roomLabel (r : Room.t) : string :=
  JS.orEmpty (JS.or (Room.name r) (JS.or (Some (Room.roomId r)) (Some ""))).

(** Truthiness of a [JsValue]. *)
Definition truthyValue (v : JsValue) : bool :=
  match v with
  | Missing => false
  | Text s => JS.truthyStr s
  | NotText t => t
  end.

(** [(r.getLastLiveEvent?.()?.getContent?.()?.body || "")]: the body when
    it is truthy, whatever its type, and the empty string otherwise. *)
Definition roomPreview (r : Room.t) : JsValue :=
  if truthyValue (Room.lastLiveBody r) then Room.lastLiveBody r else Text "".

(** [v.toLowerCase()] with the lower-casing [lower] of strings: a value
    that is no string has no such method and the call throws a
    [TypeError], which is [None]. *)
Definition lowerCased (lower : string -> string) (v : JsValue)
  : option string :=
  match v with
  | Text s => Some (lower s)
  | Missing => None
  | NotText _ => None
  end.

(** [xs.filter(f)] for a callback that may throw: the elements are visited
    in order and the first throw ends the call. *)
Fixpoint filterOrThrow {A : Type} (f : A -> option bool) (xs : list A)
  : option (list A) :=
  match xs with
  | [] => Some []
  | x :: t =>
      match f x with
      | None => None
      | Some keep =>
          match filterOrThrow f t with
          | None => None
          | Some kept => Some (if keep then x :: kept else kept)
          end
      end
  end.

(** The callback of the filter, for the lower-cased trimmed query [q]:
    both [name] and [last] are computed before the test. *)
Definition matchesQuery (lower : string -> string) (q : string)
  (r : Room.t) : option bool :=
  let name := lower (roomLabel r) in
  match lowerCased lower (roomPreview r) with
  | None => None
  | Some last => Some (JS.includes name q || JS.includes last q)
  end.

(** The body of the [filteredRooms] memo, over the [toLowerCase] of the
    language as [lower]; [None] is a throw. *)
Definition filteredRoomsWith (lower : string -> string)
  (rooms : list Room.t) (query : string) : option (list Room.t) :=
  let q := lower (JS.trim query) in
  if negb (JS.truthyStr q) then Some rooms
  else filterOrThrow (matchesQuery lower q) rooms.

(** The same for text within Latin-1, where [toLowerCase] is the
    unit-by-unit [JS.toLowerCase]. *)
Definition filteredRoomsOf (rooms : list Room.t) (query : string)
  : option (list Room.t) :=
  filteredRoomsWith JS.toLowerCase rooms query.

(** [filteredRooms], the memo on [rooms, query]. *)
Definition filteredRooms (st : AppState) : option (list Room.t) :=
  filteredRoomsOf (rooms st) (query st).

(** [safeText(v)] *)
Definition safeText (v : JsValue) : string :=
  match v with
  | Text s => s
  | Missing => ""
  | NotText _ => ""
  end.



(* ------------------------------------------------------------------ *)
(** ** Notions the properties are stated with                           *)
(* ------------------------------------------------------------------ *)

(** A comparator of the form [(a, b) => key(b) - key(a)], and the order it
    sorts into: an earlier element has the greater or equal key. *)
Definition byKeyDesc {A : Type} (key : A -> Z) (a b : A) : Z :=
  (key b - key a)%Z.

Definition keyGe {A : Type} (key : A -> Z) (a b : A) : Prop :=
  (key b <= key a)%Z.

(** The client files every event of a room's live timeline under that
    room. *)
Definition storeWellFiled (c : Client.t) : Prop :=
  forall r e, In r (Client.getRooms c) -> In e (Room.liveEvents r) ->
              getRoomId e = Room.roomId r.

(** A body on which the filter throws: truthy and not a string. *)
Definition bodyThrows (r : Room.t) : Prop :=
  Room.lastLiveBody r = NotText true.

(** The text the filter searches besides the name: the body when it is a
    string, and the empty string when there is none. *)
Definition bodyText (r : Room.t) : string := safeText (roomPreview r).

(** The test the filter applies to a room whose body does not throw, on
    the trimmed query. *)
Definition roomMatches (lower : string -> string) (query : string)
  (r : Room.t) : bool :=
  JS.includes (lower (roomLabel r)) (lower (JS.trim query))
  || JS.includes (lower (bodyText r)) (lower (JS.trim query)).





(** The invariant of the data model: the event sequence belongs to the
    selected room, and is empty while no room is selected. *)
Definition eventsOfActive (st : AppState) : Prop :=
  match activeRoomId st with
  | Some id => Forall (fun e => getRoomId e = id) (events st)
  | None => events st = []
  end.

Definition clientWellFiled (st : AppState) : Prop :=
  forall c, client st = Some c -> storeWellFiled c.

(** The state [App] mounts with: [useState(loadSession())] and the empty
    cells. *)
Definition initialState (loaded : option Session) (mobile : bool)
  : AppState :=
  {| stored := loaded; session := loaded; client := None; rooms := [];
     activeRoomId := None; events := []; message := ""; query := "";
     isMobile := mobile; newChatOpen := false; newChatInput := "";
     newChatBusy := false; typingUsers := [] |}.

(** What can happen to a mounted [App], from one state in which the effects
    have run to the next.  The client is a mutable object: when its store
    moves on, the app holds a new snapshot of it under the same reference
    and no effect runs ([step_store]); the same step is the render that
    first holds a newly created client, and [step_client] is the
    active-room effect after it.  A timeline notification carries an event
    of the room it names. *)
Inductive step : AppState -> AppState -> Prop :=
| step_store (c : Client.t) (st : AppState) :
    storeWellFiled c -> step st (setClient (Some c) st)
| step_client (c : Client.t) (st : AppState) :
    storeWellFiled c -> step st (clientReplaced c st)
| step_select (id : option string) (st : AppState) :
    step st (changeActiveRoom id st)
| step_sync (c : Client.t) (state : string) (st : AppState) :
    step st (onSync c state st)
| step_room (c : Client.t) (st : AppState) :
    step st (onRoom c st)
| step_timeline (ev : MatrixEvent) (room : option Room.t) (back : bool)
    (st : AppState) :
    (forall r, room = Some r -> getRoomId ev = Room.roomId r) ->
    step st (onRoomTimeline ev room back st)
| step_typing (c : Client.t) (room : option Room.t) (st : AppState) :
    step st (onTyping c room st)
| step_logout (how : Completion) (st0 st : AppState) :
    step st (snd (logout how st0 st)).

Inductive reachable : AppState -> Prop :=
| reach_mount (loaded : option Session) (mobile : bool) :
    reachable (initialState loaded mobile)
| reach_step (st st' : AppState) :
    reachable st -> step st st' -> reachable st'.

(* ------------------------------------------------------------------ *)
(** ** Reference data for the examples                                  *)
(* ------------------------------------------------------------------ *)

Module Sample.

Definition alice : string := "@alice:example.org".

Definition login : Session :=
  {| baseUrl := "https://example.org"; accessToken := "token";
     userId := Some alice; deviceId := Some "DEVICE" |}.

Definition text (id room sender text : string) : MatrixEvent :=
  {| getId := id; getRoomId := room; getType := "m.room.message";
     getSender := Some sender; contentBody := Some text |}.

Definition memberAlice : Member.t :=
  {| Member.name := Some "Alice"; Member.rawDisplayName := Some "Alice";
     Member.displayName := None; Member.userId := Some alice |}.

Definition memberBob : Member.t :=
  {| Member.name := Some "@bob:example.org";
     Member.rawDisplayName := None; Member.displayName := None;
     Member.userId := Some "@bob:example.org" |}.

(** A named room with activity, where Alice and Bob are typing. *)
Definition roomA : Room.t :=
  {| Room.roomId := "!a:example.org"; Room.name := Some "alice's room";
     Room.getLastActiveTimestamp := Some 1700000000000%Z;
     Room.lastLiveBody := Text "see you";
     Room.liveEvents :=
       [text "$a1" "!a:example.org" "@bob:example.org" "see you"];
     Room.getTypingMembers := Some [Some memberAlice; Some memberBob] |}.

(** A room that mentions Carol in its last message only. *)
Definition roomB : Room.t :=
  {| Room.roomId := "!b:example.org"; Room.name := Some "Team";
     Room.getLastActiveTimestamp := Some 1700000500000%Z;
     Room.lastLiveBody := Text "lunch with Carol?";
     Room.liveEvents :=
       [text "$b1" "!b:example.org" "@bob:example.org" "hi";
        text "$b2" "!b:example.org" alice "lunch with Carol?"];
     Room.getTypingMembers := None |}.

(** A room with no recorded activity and no name. *)
Definition roomQuiet : Room.t :=
  {| Room.roomId := "!q:example.org"; Room.name := None;
     Room.getLastActiveTimestamp := None;
     Room.lastLiveBody := Missing;
     Room.liveEvents := [];
     Room.getTypingMembers := None |}.

(** A room whose last event a remote server stamped before the epoch. *)
Definition roomEarly : Room.t :=
  {| Room.roomId := "!e:example.org"; Room.name := Some "Archive";
     Room.getLastActiveTimestamp := Some (-5)%Z;
     Room.lastLiveBody := Text "old";
     Room.liveEvents :=
       [text "$e1" "!e:example.org" "@bob:example.org" "old"];
     Room.getTypingMembers := None |}.

(** A room whose live timeline holds 201 events. *)
Definition roomLong : Room.t :=
  {| Room.roomId := "!l:example.org"; Room.name := Some "Log";
     Room.getLastActiveTimestamp := Some 1700000900000%Z;
     Room.lastLiveBody := Text "tick";
     Room.liveEvents :=
       repeat (text "$l" "!l:example.org" "@bob:example.org" "tick") 201;
     Room.getTypingMembers := None |}.

Definition store : Client.t :=
  {| Client.getRooms := [roomQuiet; roomA; roomEarly; roomB; roomLong] |}.

(** Logged in and synced, with [roomA] open on a wide screen. *)
Definition state : AppState :=
  {| stored := Some login; session := Some login;
     client := Some store;
     rooms := sortedRooms store;
     activeRoomId := Some "!a:example.org";
     events := Room.liveEvents roomA;
     message := "hel"; query := ""; isMobile := false;
     newChatOpen := false; newChatInput := ""; newChatBusy := false;
     typingUsers := ["@bob:example.org"] |}.

End Sample.

Module Stores.


(** A room whose last event carries a number where the body should be. *)
Definition roomOdd : Room.t :=
  {| Room.roomId := "!o:example.org"; Room.name := Some "Odd";
     Room.getLastActiveTimestamp := Some 1700000100000%Z;
     Room.lastLiveBody := NotText true;
     Room.liveEvents := [];
     Room.getTypingMembers := None |}.


(** The store of a client that has just been created and has not synced. *)
Definition unsynced : Client.t := {| Client.getRooms := [] |}.

End Stores.

(* ------------------------------------------------------------------ *)
(** ** More of the language: slices with negative indices               *)
(* ------------------------------------------------------------------ *)

Module JSMore.

(** The relative index of [slice]: a negative index counts from the end,
    and the result is clamped to [0 .. len]. *)
Definition relativeIndex (len i : Z) : Z :=
  if (i <? 0)%Z then Z.max (len + i) 0 else Z.min i len.

(** [s.slice(start, end)] for integer indices. *)
Definition sliceBetween (s : string) (start stop : Z) : string :=
  let len := Z.of_nat (String.length s) in
  let from := relativeIndex len start in
  let upto := relativeIndex len stop in
  String.substring (Z.to_nat from) (Z.to_nat (upto - from)) s.

(** [s.slice(start)] *)
Definition sliceFrom (s : string) (start : Z) : string :=
  sliceBetween s start (Z.of_nat (String.length s)).

(** [Math.ceil(n / 2)] and [Math.floor(n / 2)] for an integer [n]. *)
Definition ceilHalf (n : Z) : Z := ((n + 1) / 2)%Z.
Definition floorHalf (n : Z) : Z := (n / 2)%Z.

(** [xs.slice(-n)] on arrays, for [n > 0]: the last [n] elements. *)
Definition arrayLast {A : Type} (xs : list A) (n : nat) : list A :=
  skipn (List.length xs - n) xs.

End JSMore.

(** [truncateMiddle(s, max = 22)]; [max] is an integer. *)
Definition truncateMiddle (s : option string) (max : Z) : option string :=
  match s with
  | None => None
  | Some str =>
      if negb (JS.truthyStr str) || (Z.of_nat (String.length str) <=? max)%Z
      then s
      else
        let left := JSMore.ceilHalf (max - 3) in
        let right := JSMore.floorHalf (max - 3) in
        Some (JSMore.sliceBetween str 0 left ++ "..."
              ++ JSMore.sliceFrom str (Z.of_nat (String.length str) - right))
  end.

(* ------------------------------------------------------------------ *)
(** ** Commands: what leaves the app, and how an awaited call settles   *)
(* ------------------------------------------------------------------ *)

(** The options [startDM] hands to [client.createRoom]; [encryption] is the
    algorithm of the [m.room.encryption] entry of [initial_state]. *)
Record CreateRoomOpts := {
  invite : list string;
  is_direct : bool;
  preset : string;
  roomName : string;
  encryption : option string
}.

Inductive Effect :=
| PasswordLogin (server user password : string)
| TypingSignal (room : string) (isTyping : bool) (timeout : option Z)
| TextMessage (room body txnId : string)
| CreateRoom (opts : CreateRoomOpts)
| ReadReceipt (ev : MatrixEvent)
| Receipt (ev : MatrixEvent) (receiptType : string)
| Alert (text : string).

(** An awaited call resolves to a value or rejects with an error [e].  All
    the app ever reads of an error is the text [String(e?.message || e)],
    in the [catch] of [startDM] and in the form that calls [login]; that
    text is what a rejection carries here; [errorText] below computes it
    from the value thrown. *)
Inductive Settled (A : Type) :=
| Fulfilled (value : A)
| RejectedWith (text : string).
Arguments Fulfilled {A} value.
Arguments RejectedWith {A} text.




(** The answer of [temp.login]. *)
Record LoginResult := {
  access_token : string;
  user_id : option string;
  device_id : option string
}.

(** The answer of [client.createRoom]: [room_id] or [roomId]. *)
Record CreateRoomResult := {
  room_id : option string;
  camelRoomId : option string
}.

Definition saveSession (s : Session) (st : AppState) : AppState :=
  {| stored := Some s; session := session st; client := client st;
     rooms := rooms st; activeRoomId := activeRoomId st; events := events st;
     message := message st; query := query st; isMobile := isMobile st;
     newChatOpen := newChatOpen st; newChatInput := newChatInput st;
     newChatBusy := newChatBusy st; typingUsers := typingUsers st |}.

Definition setNewChatOpen (v : bool) (st : AppState) : AppState :=
  {| stored := stored st; session := session st; client := client st;
     rooms := rooms st; activeRoomId := activeRoomId st; events := events st;
     message := message st; query := query st; isMobile := isMobile st;
     newChatOpen := v; newChatInput := newChatInput st;
     newChatBusy := newChatBusy st; typingUsers := typingUsers st |}.

Definition setNewChatInput (v : string) (st : AppState) : AppState :=
  {| stored := stored st; session := session st; client := client st;
     rooms := rooms st; activeRoomId := activeRoomId st; events := events st;
     message := message st; query := query st; isMobile := isMobile st;
     newChatOpen := newChatOpen st; newChatInput := v;
     newChatBusy := newChatBusy st; typingUsers := typingUsers st |}.

Definition setNewChatBusy (v : bool) (st : AppState) : AppState :=
  {| stored := stored st; session := session st; client := client st;
     rooms := rooms st; activeRoomId := activeRoomId st; events := events st;
     message := message st; query := query st; isMobile := isMobile st;
     newChatOpen := newChatOpen st; newChatInput := newChatInput st;
     newChatBusy := v; typingUsers := typingUsers st |}.

Definition setQuery (v : string) (st : AppState) : AppState :=
  {| stored := stored st; session := session st; client := client st;
     rooms := rooms st; activeRoomId := activeRoomId st; events := events st;
     message := message st; query := v; isMobile := isMobile st;
     newChatOpen := newChatOpen st; newChatInput := newChatInput st;
     newChatBusy := newChatBusy st; typingUsers := typingUsers st |}.

Definition setIsMobile (v : bool) (st : AppState) : AppState :=
  {| stored := stored st; session := session st; client := client st;
     rooms := rooms st; activeRoomId := activeRoomId st; events := events st;
     message := message st; query := query st; isMobile := v;
     newChatOpen := newChatOpen st; newChatInput := newChatInput st;
     newChatBusy := newChatBusy st; typingUsers := typingUsers st |}.

(** In the commands below [st] is the state of the render the command was
    called from, and [between] is what other handlers do to the state while
    the command waits for its call; the setters after the [await] act on
    the state they find. *)

(** [login({ homeserver, username, password })]: the effects, the text of
    the error thrown to the caller if any, and the state left. *)
Definition login (homeserver : option string) (username password : string)
  (answer : Settled LoginResult) (between : AppState -> AppState)
  (st : AppState) : list Effect * option string * AppState :=
  let base := normalizeHomeserver homeserver in
  if negb (JS.truthyStr base) then ([], Some "Homeserver is empty", st)
  else
    match answer with
    | RejectedWith m =>
        ([PasswordLogin base username password], Some m, between st)
    | Fulfilled res =>
        let s := {| baseUrl := base; accessToken := access_token res;
                    userId := user_id res; deviceId := device_id res |} in
        ([PasswordLogin base username password], None,
         setSession (Some s) (saveSession s (between st)))
    end.

(** [send()]; [txnId] is what [client.makeTxnId()] or the clock supplies,
    [typingStop] and [delivery] are how the two awaited calls settle. *)
Definition send (txnId : string) (typingStop delivery : Completion)
  (between : AppState -> AppState) (st : AppState)
  : list Effect * Completion * AppState :=
  match client st with
  | None => ([], Normal, st)
  | Some _ =>
      if negb (JS.truthy (activeRoomId st)) then ([], Normal, st)
      else
        let text := JS.trim (message st) in
        if negb (JS.truthyStr text) then ([], Normal, st)
        else
          let room := JS.orEmpty (activeRoomId st) in
          tryCatchThen typingStop (fun r => r)
            (match delivery with
             | Throw =>
                 ([TypingSignal room false None; TextMessage room text txnId],
                  Throw, between st)
             | Normal =>
                 ([TypingSignal room false None; TextMessage room text txnId],
                  Normal, setMessage "" (between st))
             end)
  end.

(** The room [startDM] asks for. *)
Definition dmOptions (mxid : string) : CreateRoomOpts :=
  {| invite := [mxid]; is_direct := true;
     preset := "trusted_private_chat"; roomName := "DM with " ++ mxid;
     encryption := Some "m.megolm.v1.aes-sha2" |}.

(** [roomRes?.room_id || roomRes?.roomId] *)
Definition createdRoomId (res : option CreateRoomResult) : option string :=
  match res with
  | Some r => JS.or (room_id r) (camelRoomId r)
  | None => None
  end.

(** [startDM()], with the active-room effect that follows a new selection.
    The [catch] calls [alert(String(e?.message || e))], the text a
    rejection carries. *)
Definition startDM (answer : Settled (option CreateRoomResult))
  (between : AppState -> AppState) (st : AppState)
  : list Effect * AppState :=
  match client st with
  | None => ([], st)
  | Some _ =>
      if negb (JS.truthy (myUserId st)) then ([], st)
      else
        let mxid := normalizeMxId (Some (newChatInput st)) (myUserId st) in
        if negb (JS.truthyStr mxid) then ([], st)
        else
          let busy := between (setNewChatBusy true st) in
          match answer with
          | Fulfilled res =>
              let roomId := createdRoomId res in
              let closed := setNewChatInput "" (setNewChatOpen false busy) in
              let opened := if JS.truthy roomId
                            then setActiveRoomId roomId closed
                            else closed in
              ([CreateRoom (dmOptions mxid)],
               commit busy (setNewChatBusy false opened))
          | RejectedWith m =>
              ([CreateRoom (dmOptions mxid); Alert m],
               setNewChatBusy false busy)
          end
  end.

(* ------------------------------------------------------------------ *)
(** ** Composer: the typing signal and its timer                        *)
(* ------------------------------------------------------------------ *)

(** A timer set by [setTimeout(() => sendTyping(false), delay)]: its
    handle, its delay in milliseconds and the render its callback closes
    over. *)
Record Timer := {
  handle : nat;
  delay : Z;
  captured : AppState
}.

(** The two refs of the composer, [typingActiveRef] and [typingTimerRef],
    and the timers of the page that have not fired yet; [nextHandle] is the
    handle the next [setTimeout] answers, a positive number. *)
Record Composer := {
  typingActive : bool;
  typingTimer : option nat;
  pending : list Timer;
  nextHandle : nat
}.

Definition initialComposer : Composer :=
  {| typingActive := false; typingTimer := None; pending := [];
     nextHandle := 1 |}.

Definition setTypingActive (v : bool) (cm : Composer) : Composer :=
  {| typingActive := v; typingTimer := typingTimer cm;
     pending := pending cm; nextHandle := nextHandle cm |}.

(** [clearTimeout(h)] *)
Definition clearTimeout (h : nat) (cm : Composer) : Composer :=
  {| typingActive := typingActive cm; typingTimer := typingTimer cm;
     pending := filter (fun t => negb (Nat.eqb (handle t) h)) (pending cm);
     nextHandle := nextHandle cm |}.

(** [if (typingTimerRef.current) clearTimeout(typingTimerRef.current)] *)
Definition clearTypingTimer (cm : Composer) : Composer :=
  match typingTimer cm with
  | Some h => if Nat.eqb h 0 then cm else clearTimeout h cm
  | None => cm
  end.

(** [typingTimerRef.current = setTimeout(() => sendTyping(false), d)] *)
Definition setTypingTimer (d : Z) (cap : AppState) (cm : Composer)
  : Composer :=
  {| typingActive := typingActive cm;
     typingTimer := Some (nextHandle cm);
     pending := (pending cm
                 ++ [{| handle := nextHandle cm; delay := d;
                        captured := cap |}])%list;
     nextHandle := S (nextHandle cm) |}.

(** [sendTyping(isTyping)] called from the render [cap]; a failed
    transmission is caught and dropped. *)
Definition sendTyping (isTyping : bool) (cap : AppState) (cm : Composer)
  : list Effect * Composer :=
  match client cap with
  | None => ([], cm)
  | Some _ =>
      if negb (JS.truthy (activeRoomId cap)) then ([], cm)
      else
        let room := JS.orEmpty (activeRoomId cap) in
        if isTyping then
          if negb (typingActive cm)
          then ([TypingSignal room true (Some 4000%Z)],
                setTypingActive true cm)
          else ([TypingSignal room true (Some 4000%Z)], cm)
        else ([TypingSignal room false None], setTypingActive false cm)
  end.

(** [onComposerChange(next)] *)
Definition onComposerChange (next : string) (sc : AppState * Composer)
  : list Effect * (AppState * Composer) :=
  let (st, cm) := sc in
  if negb (JS.truthyStr (JS.trim next))
  then ([], (setMessage next st,
             setTypingTimer 200 st (clearTypingTimer cm)))
  else
    let (sent, cm1) := sendTyping true st cm in
    (sent, (setMessage next st,
            setTypingTimer 2200 st (clearTypingTimer cm1))).

(** A pending timer fires: it leaves the timers of the page and its
    callback runs. *)
Definition fireTimer (h : nat) (cm : Composer) : list Effect * Composer :=
  match find (fun t => Nat.eqb (handle t) h) (pending cm) with
  | None => ([], cm)
  | Some t => sendTyping false (captured t) (clearTimeout h cm)
  end.

(** What the composer can go through. *)
Inductive composerStep : Composer -> Composer -> Prop :=
| composer_change (next : string) (st : AppState) (cm : Composer) :
    composerStep cm (snd (snd (onComposerChange next (st, cm))))
| composer_fire (h : nat) (cm : Composer) :
    composerStep cm (snd (fireTimer h cm)).

Inductive composerReachable : Composer -> Prop :=
| composer_mount : composerReachable initialComposer
| composer_next (cm cm' : Composer) :
    composerReachable cm -> composerStep cm cm' -> composerReachable cm'.

(** The timers of the page belong to the composer: there is at most one,
    the one whose handle [typingTimerRef] holds, and handles are positive
    numbers not handed out again. *)
Definition timersOwned (cm : Composer) : Prop :=
  0 < nextHandle cm /\ List.length (pending cm) <= 1 /\
  forall t, In t (pending cm) ->
            typingTimer cm = Some (handle t) /\
            0 < handle t < nextHandle cm.

(* ------------------------------------------------------------------ *)
(** ** ChatView: the messages shown and the read receipt                *)
(* ------------------------------------------------------------------ *)

(** [e.getType?.() === "m.room.message"] *)
Definition isRoomMessage (e : MatrixEvent) : bool :=
  String.eqb (getType e) "m.room.message".

(** [e.getContent?.()?.msgtype === "m.text" || e.getContent?.()?.body];
    [msgtype] is the field of the content that [MatrixEvent] leaves out. *)
Definition hasText (msgtype : MatrixEvent -> option string)
  (e : MatrixEvent) : bool :=
  match msgtype e with
  | Some t => String.eqb t "m.text"
  | None => false
  end || JS.truthy (contentBody e).

(** [msgEvents] *)
Definition msgEvents (msgtype : MatrixEvent -> option string)
  (evs : list MatrixEvent) : list MatrixEvent :=
  filter (hasText msgtype) (filter isRoomMessage evs).

(** [msgEvents.slice(-400)], the messages rendered. *)
Definition renderedMessages (msgtype : MatrixEvent -> option string)
  (evs : list MatrixEvent) : list MatrixEvent :=
  JSMore.arrayLast (msgEvents msgtype evs) 400.

(** [sender && sender !== myUserId] for [sender = e.getSender?.()] *)
Definition fromSomeoneElse (me : option string) (e : MatrixEvent) : bool :=
  JS.truthy (getSender e) && notMe me (JS.orEmpty (getSender e)).

(** [[...msgEvents].reverse().find(...)] *)
Definition latestFromOthers (msgtype : MatrixEvent -> option string)
  (me : option string) (evs : list MatrixEvent) : option MatrixEvent :=
  find (fromSomeoneElse me) (rev (msgEvents msgtype evs)).

(** The read-receipt effect of [ChatView], for the room and events [App]
    passes it; [canReadReceipt] and [canReceipt] say which of
    [sendReadReceipt] and [sendReceipt] the client has. *)
Definition readReceiptEffect (msgtype : MatrixEvent -> option string)
  (canReadReceipt canReceipt : bool) (st : AppState) : list Effect :=
  match client st, activeRoom st, msgEvents msgtype (events st) with
  | Some _, Some _, _ :: _ =>
      match latestFromOthers msgtype (myUserId st) (events st) with
      | None => []
      | Some latest =>
          if canReadReceipt then [ReadReceipt latest]
          else if canReceipt then [Receipt latest "m.read"]
          else []
      end
  | _, _, _ => []
  end.

(** [senderDisplayName(room, senderId)]; [getMember] is the lookup of the
    room, [None] when the room has no such method, and finds no member by
    answering [None].  A lookup that throws is caught and answered with
    [senderId], as is a lookup that finds nothing. *)
Definition senderDisplayName (room : option Room.t)
  (getMember : option (string -> option Member.t))
  (senderId : option string) : string :=
  match room with
  | None => JS.orEmpty (JS.or senderId (Some ""))
  | Some _ =>
      if negb (JS.truthy senderId) then JS.orEmpty (JS.or senderId (Some ""))
      else
        let m := match getMember with
                 | Some lookup => lookup (JS.orEmpty senderId)
                 | None => None
                 end in
        let n := match m with
                 | Some m => JS.or (Member.name m)
                               (JS.or (Member.rawDisplayName m)
                                  (Member.displayName m))
                 | None => None
                 end in
        JS.orEmpty (JS.or n senderId)
  end.

(** [lastSender === myUserId] for a string [lastSender]. *)
Definition isMe (me : option string) (sender : string) : bool :=
  match me with
  | Some u => String.eqb sender u
  | None => false
  end.

(** The second line of a room in [RoomList]: the last message with its
    sender in front.  [lastSender] is [lastEv?.getSender?.()], which
    [Room.t] leaves out; [safeText] turns a body that is no string into
    the empty string. *)
Definition previewLine (me : option string) (r : Room.t)
  (lastSender : option string)
  (getMember : option (string -> option Member.t)) : string :=
  let lastBody := roomPreview r in
  let sender := JS.orEmpty (JS.or lastSender (Some "")) in
  let lastSenderName :=
    if JS.truthyStr sender
    then senderDisplayName (Some r) getMember (Some sender)
    else "" in
  if JS.truthyStr (safeText lastBody)
  then (if JS.truthyStr sender
        then (if isMe me sender then "You"
              else JS.orEmpty (truncateMiddle (Some lastSenderName) 18))
             ++ ": "
        else "")
       ++ safeText lastBody
  else "".

(* ------------------------------------------------------------------ *)
(** ** Every handler of the app                                         *)
(* ------------------------------------------------------------------ *)

(** The states the app is in once the effects of a render have run: the
    listeners of [step] and the commands, each with the active-room effect
    it triggers.  The render between a change of selection and that effect
    is not among them; it is the state the setter alone leaves.  A command
    is called in the render of one state, [called], and finds another,
    [found], when its awaited call has settled. *)
Inductive appReachable : AppState -> Prop :=
| app_mount (loaded : option Session) (mobile : bool) :
    appReachable (initialState loaded mobile)
| app_listener (st st' : AppState) :
    appReachable st -> step st st' -> appReachable st'
| app_login (homeserver : option string) (username password : string)
    (answer : Settled LoginResult) (called found : AppState) :
    appReachable called -> appReachable found ->
    appReachable (snd (login homeserver username password answer
                         (fun _ => found) called))
| app_send (txnId : string) (typingStop delivery : Completion)
    (called found : AppState) :
    appReachable called -> appReachable found ->
    appReachable (snd (send txnId typingStop delivery
                         (fun _ => found) called))
| app_startDM_waiting (st : AppState) :
    appReachable st -> appReachable (setNewChatBusy true st)
| app_startDM (answer : Settled (option CreateRoomResult))
    (called found : AppState) :
    appReachable called -> appReachable found ->
    appReachable (snd (startDM answer (fun _ => found) called))
| app_compose (next : string) (st : AppState) (cm : Composer) :
    appReachable st ->
    appReachable (fst (snd (onComposerChange next (st, cm))))
| app_dialog (open : bool) (st : AppState) :
    appReachable st -> appReachable (setNewChatOpen open st)
| app_dialogInput (v : string) (st : AppState) :
    appReachable st -> appReachable (setNewChatInput v st)
| app_search (v : string) (st : AppState) :
    appReachable st -> appReachable (setQuery v st)
| app_resize (mobile : bool) (st : AppState) :
    appReachable st -> appReachable (setIsMobile mobile st).

(* ================================================================== *)
(** * Properties                                                        *)
(* ================================================================== *)

(* ------------------------------------------------------------------ *)
(** ** Facts about the string primitives                                *)
(* ------------------------------------------------------------------ *)

Module JSFacts.
Import JS.

Lemma prefix_app (p r : string) : String.prefix p (p ++ r) = true.
Proof.
  induction p as [|c p IH]; simpl.
  - now destruct r.
  - destruct (ascii_dec c c) as [_|N]; [exact IH | now elim N].
Qed.

Lemma prefix_split (p s : string) :
  String.prefix p s = true -> exists r, s = p ++ r.
Proof.
  revert s; induction p as [|c p IH]; intros s H.
  - now exists s.
  - destruct s as [|d s]; simpl in H; [discriminate|].
    destruct (ascii_dec c d) as [->|]; [|discriminate].
    destruct (IH _ H) as [r ->]. now exists r.
Qed.

Lemma includes_prefix (s q : string) :
  String.prefix q s = true -> includes s q = true.
Proof. intros H. destruct s; cbn [includes]; now rewrite H. Qed.

Lemma includes_app (a q b : string) : includes (a ++ q ++ b) q = true.
Proof.
  induction a as [|c a IH]; simpl.
  - apply includes_prefix, prefix_app.
  - rewrite IH. apply orb_true_r.
Qed.

Lemma includes_split (s q : string) :
  includes s q = true -> exists a b, s = a ++ q ++ b.
Proof.
  induction s as [|c s IH]; cbn [includes]; intros H.
  - rewrite orb_false_r in H. destruct (prefix_split _ _ H) as [r E].
    now exists "", r.
  - apply orb_true_iff in H. destruct H as [H|H].
    + destruct (prefix_split _ _ H) as [r E]. now exists "", r.
    + destruct (IH H) as (a & b & ->). now exists (String c a), b.
Qed.

Lemma includes_iff (s q : string) :
  includes s q = true <-> exists a b, s = a ++ q ++ b.
Proof.
  split; [apply includes_split|]. intros (a & b & ->). apply includes_app.
Qed.

(** *** trimming *)

Lemma trimStart_head (c : ascii) (s : string) :
  isWhiteSpace c = false -> trimStart (String c s) = String c s.
Proof. intros H; simpl; now rewrite H. Qed.

Lemma trimStart_shape (s : string) :
  trimStart s = "" \/
  exists c r, trimStart s = String c r /\ isWhiteSpace c = false.
Proof.
  induction s as [|c s IH]; simpl; [now left|].
  destruct (isWhiteSpace c) eqn:E; [exact IH|]. right. now exists c, s.
Qed.

Lemma trimEnd_head (c : ascii) (s : string) :
  isWhiteSpace c = false -> exists r, trimEnd (String c s) = String c r.
Proof.
  intros H; simpl. destruct (trimEnd s); rewrite ?H; eauto.
Qed.

Lemma trimEnd_idem (s : string) : trimEnd (trimEnd s) = trimEnd s.
Proof.
  induction s as [|c s IH]; simpl; [reflexivity|].
  destruct (trimEnd s) as [|d r] eqn:E.
  - destruct (isWhiteSpace c) eqn:W; simpl; now rewrite ?W.
  - change (trimEnd (String c (String d r))) with
      (match trimEnd (String d r) with
       | "" => if isWhiteSpace c then "" else String c ""
       | r' => String c r'
       end).
    now rewrite IH.
Qed.

Lemma trim_idem (s : string) : trim (trim s) = trim s.
Proof.
  unfold trim.
  destruct (trimStart_shape s) as [E|(c & r & E & W)]; rewrite E.
  - reflexivity.
  - destruct (trimEnd_head c r W) as [r' E'].
    rewrite E', (trimStart_head _ _ W), <- E'. apply trimEnd_idem.
Qed.

Lemma trimEnd_app_fixed (a b : string) :
  b <> "" -> trimEnd b = b -> trimEnd (a ++ b) = a ++ b.
Proof.
  intros Hne Hb. induction a as [|c a IH]; simpl; [exact Hb|].
  rewrite IH. destruct (a ++ b) eqn:E; [|reflexivity].
  destruct a; simpl in E; [now elim Hne | discriminate].
Qed.

Lemma trim_fixed (c : ascii) (a b : string) :
  isWhiteSpace c = false -> b <> "" -> trimEnd b = b ->
  trim (String c (a ++ b)) = String c (a ++ b).
Proof.
  intros W Hne Hb. unfold trim. rewrite (trimStart_head _ _ W).
  apply (trimEnd_app_fixed (String c a) b Hne Hb).
Qed.

End JSFacts.

(* ------------------------------------------------------------------ *)
(** ** Identity normalizer                                              *)
(* ------------------------------------------------------------------ *)

Section NormalizeMxId.
Import JS JSFacts.

Variables (input myUserId : option string).

Lemma normalizeMxId_empty :
  trim (orEmpty input) = "" -> normalizeMxId input myUserId = "".
Proof. unfold normalizeMxId; now intros ->. Qed.

Lemma normalizeMxId_qualified :
  startsWith (trim (orEmpty input)) "@" = true ->
  includes (trim (orEmpty input)) ":" = true ->
  normalizeMxId input myUserId = trim (orEmpty input).
Proof.
  unfold normalizeMxId; intros S I. rewrite S, I.
  destruct (trim (orEmpty input)); [discriminate S | reflexivity].
Qed.

Lemma normalizeMxId_bare :
  trim (orEmpty input) <> "" ->
  startsWith (trim (orEmpty input)) "@"
  && includes (trim (orEmpty input)) ":" = false ->
  normalizeMxId input myUserId
  = "@" ++ (if startsWith (trim (orEmpty input)) "@"
            then slice (trim (orEmpty input)) 1
            else trim (orEmpty input))
        ++ ":" ++ myServerOf myUserId.
Proof.
  unfold normalizeMxId; intros N E. rewrite E.
  destruct (trim (orEmpty input)); [now elim N | reflexivity].
Qed.

Lemma myServerOf_nonempty : myServerOf myUserId <> "".
Proof.
  unfold myServerOf, or.
  destruct (truthy (nth_error (split (orEmpty myUserId) ":") 1)) eqn:T;
    [|discriminate].
  destruct (nth_error _ 1) as [[|c r]|]; simpl in *; discriminate.
Qed.

(** Every output is empty or a qualified id: it starts with [@] and
    holds a [:]. *)
Lemma normalizeMxId_shape :
  normalizeMxId input myUserId = "" \/
  (startsWith (normalizeMxId input myUserId) "@" = true /\
   includes (normalizeMxId input myUserId) ":" = true).
Proof.
  destruct (trim (orEmpty input)) as [|c r] eqn:V;
    [left; now apply normalizeMxId_empty|].
  right.
  destruct (startsWith (trim (orEmpty input)) "@"
            && includes (trim (orEmpty input)) ":") eqn:E.
  - apply andb_true_iff in E as [S I].
    rewrite (normalizeMxId_qualified S I). now split.
  - rewrite normalizeMxId_bare; [|rewrite V; discriminate | exact E].
    split; [apply (prefix_app "@")|].
    apply (includes_app (String "@" _) ":" (myServerOf myUserId)).
Qed.

End NormalizeMxId.

Lemma trimEnd_keeps (s : string) :
  JS.endsWithWhiteSpace s = false -> JS.trimEnd s = s.
Proof.
  induction s as [|c r IH]; [reflexivity|].
  destruct r as [|d r'].
  - simpl. now intros ->.
  - intros H. change (JS.endsWithWhiteSpace (String d r') = false) in H.
    change (JS.trimEnd (String c (String d r')))
      with (match JS.trimEnd (String d r') with
            | "" => if JS.isWhiteSpace c then "" else String c ""
            | r0 => String c r0
            end).
    now rewrite (IH H).
Qed.

Lemma normalizeMxId_fixed_point (out my : option string) (s : string) :
  out = Some s -> JS.trim s = s ->
  JS.startsWith s "@" = true -> JS.includes s ":" = true ->
  normalizeMxId out my = s.
Proof.
  intros -> T S I.
  rewrite <- T at 2.
  apply normalizeMxId_qualified; simpl; now rewrite T.
Qed.

(** The examples of the specification. *)
Example normalizeMxId_bare_name :
  normalizeMxId (Some "bob") (Some "@alice:example.org") = "@bob:example.org".
Proof. reflexivity. Qed.

Example normalizeMxId_qualified_kept :
  normalizeMxId (Some "@bob:other.org") (Some "@alice:example.org")
  = "@bob:other.org".
Proof. reflexivity. Qed.

Example normalizeMxId_empty_input (myUserId : option string) :
  normalizeMxId (Some "") myUserId = "" /\ normalizeMxId None myUserId = "".
Proof. split; reflexivity. Qed.

Example normalizeMxId_no_server :
  normalizeMxId (Some "@bob") None = "@bob:matrix.org" /\
  normalizeMxId (Some "bob") (Some "alice") = "@bob:matrix.org" /\
  normalizeMxId (Some "bob") (Some "@alice:") = "@bob:matrix.org".
Proof. repeat split; reflexivity. Qed.

Example normalizeHomeserver_examples :
  normalizeHomeserver (Some "matrix.org") = "https://matrix.org" /\
  normalizeHomeserver (Some "http://x") = "http://x" /\
  normalizeHomeserver (Some "") = "" /\
  normalizeHomeserver None = "".
Proof. repeat split; reflexivity. Qed.

(** C9 (as amended): a second pass of [normalizeMxId] returns the result of
    the first, for every input and every local user id whose server part,
    as [myServerOf] reads it, does not end in white space; and every
    output that is not empty starts with [@] and holds a [:]. *)
Theorem normalizeMxId_idempotent (input myUserId : option string) :
  JS.endsWithWhiteSpace (myServerOf myUserId) = false ->
  normalizeMxId (Some (normalizeMxId input myUserId)) myUserId
  = normalizeMxId input myUserId /\
  (normalizeMxId input myUserId <> "" ->
   JS.startsWith (normalizeMxId input myUserId) "@" = true /\
   JS.includes (normalizeMxId input myUserId) ":" = true).
Proof.
  intros W. split.
  2: { intros N. now destruct (normalizeMxId_shape input myUserId). }
  destruct (JS.trim (JS.orEmpty input)) as [|c r] eqn:V.
  - now rewrite (normalizeMxId_empty input myUserId V).
  - destruct (JS.startsWith (JS.trim (JS.orEmpty input)) "@"
              && JS.includes (JS.trim (JS.orEmpty input)) ":") eqn:E.
    + apply andb_true_iff in E as [S I].
      rewrite (normalizeMxId_qualified input myUserId S I).
      apply normalizeMxId_fixed_point; auto using JSFacts.trim_idem.
    + assert (N : JS.trim (JS.orEmpty input) <> "")
        by (rewrite V; discriminate).
      pose proof (normalizeMxId_shape input myUserId) as [Z|[S I]].
      { rewrite (normalizeMxId_bare input myUserId N E) in Z. discriminate. }
      apply normalizeMxId_fixed_point; auto.
      rewrite (normalizeMxId_bare input myUserId N E).
      apply (JSFacts.trim_fixed "@" _ (":" ++ myServerOf myUserId)).
      * reflexivity.
      * discriminate.
      * apply (JSFacts.trimEnd_app_fixed ":").
        -- apply myServerOf_nonempty.
        -- now apply trimEnd_keeps.
Qed.

Lemma normalizeMxId_idempotent_witness :
  JS.endsWithWhiteSpace (myServerOf (Some "@alice:example.org")) = false /\
  normalizeMxId
    (Some (normalizeMxId (Some " @bob ") (Some "@alice:example.org")))
    (Some "@alice:example.org")
  = normalizeMxId (Some " @bob ") (Some "@alice:example.org").
Proof.
  split; [reflexivity|].
  apply (normalizeMxId_idempotent (Some " @bob ") (Some "@alice:example.org")).
  reflexivity.
Defined.

(** C9 (as stated) fails: with a local user id whose server part ends in a
    space, the first pass keeps that space and the second pass trims it. *)
Lemma normalizeMxId_not_idempotent :
  normalizeMxId (Some "bob") (Some "@alice:example.org ")
  = "@bob:example.org " /\
  normalizeMxId (Some (normalizeMxId (Some "bob") (Some "@alice:example.org ")))
    (Some "@alice:example.org ")
  = "@bob:example.org" /\
  ~ (forall input myUserId,
       normalizeMxId (Some (normalizeMxId input myUserId)) myUserId
       = normalizeMxId input myUserId).
Proof.
  split; [reflexivity|]. split; [reflexivity|].
  intros H.
  specialize (H (Some "bob") (Some "@alice:example.org ")).
  vm_compute in H. discriminate H.
Qed.

(** Where the source's reading of the server part and the specification's
    agree: a local user id with exactly one [:]. *)
Lemma split_no_sep (s : string) :
  JS.includes s ":" = false -> JS.split s ":" = [s].
Proof.
  induction s as [|c r IH]; [reflexivity|].
  cbn [JS.includes JS.split]. intros H.
  apply orb_false_iff in H as [P I].
  destruct (Ascii.eqb c ":") eqn:E.
  - apply Ascii.eqb_eq in E; subst c. simpl in P. destruct r; discriminate.
  - now rewrite (IH I).
Qed.

Lemma split_first_sep (a d : string) :
  JS.includes a ":" = false ->
  JS.split (a ++ ":" ++ d) ":" = (a :: JS.split d ":")%list.
Proof.
  induction a as [|c r IH]; [reflexivity|].
  cbn [JS.includes]. intros H. apply orb_false_iff in H as [P I].
  change (String c r ++ ":" ++ d) with (String c (r ++ ":" ++ d)).
  cbn [JS.split].
  destruct (Ascii.eqb c ":") eqn:E.
  - apply Ascii.eqb_eq in E; subst c. simpl in P. destruct r; discriminate.
  - now rewrite (IH I).
Qed.

Lemma textAfterColon_first_sep (a d : string) :
  JS.includes a ":" = false -> textAfterColon (a ++ ":" ++ d) = Some d.
Proof.
  induction a as [|c r IH]; [reflexivity|].
  cbn [JS.includes]. intros H. apply orb_false_iff in H as [P I].
  change (String c r ++ ":" ++ d) with (String c (r ++ ":" ++ d)).
  cbn [textAfterColon].
  destruct (Ascii.eqb c ":") eqn:E.
  - apply Ascii.eqb_eq in E; subst c. simpl in P. destruct r; discriminate.
  - exact (IH I).
Qed.

Lemma myServerOf_single_colon (a d : string) :
  JS.includes a ":" = false -> JS.includes d ":" = false -> d <> "" ->
  myServerOf (Some (a ++ ":" ++ d)) = d /\
  textAfterColon (a ++ ":" ++ d) = Some d.
Proof.
  intros Ha Hd Hne. split; [|now apply textAfterColon_first_sep].
  unfold myServerOf. cbn [JS.orEmpty].
  rewrite (split_first_sep a d Ha), (split_no_sep d Hd). cbn [nth_error].
  destruct d; [now elim Hne | reflexivity].
Qed.

(** C6: on a local user id whose server name carries a port, the source
    takes [split(":")[1]], the text between the first and the second [:],
    where the specification takes the text after the [:]; the port is
    lost. *)
Theorem normalizeMxId_drops_port :
  normalizeMxId (Some "bob") (Some "@alice:example.org:8448")
  = "@bob:example.org" /\
  textAfterColon "@alice:example.org:8448" = Some "example.org:8448" /\
  normalizeMxId (Some "bob") (Some "@alice:example.org")
  = "@bob:example.org".
Proof. repeat split; reflexivity. Qed.

(* ------------------------------------------------------------------ *)
(** ** Room filter                                                      *)
(* ------------------------------------------------------------------ *)

Section RoomFilter.
Import JS JSFacts.





End RoomFilter.


Lemma filterOrThrow_none {A : Type} (f : A -> option bool) (xs : list A) :
  (exists x, In x xs /\ f x = None) -> filterOrThrow f xs = None.
Proof.
  induction xs as [|y t IH]; intros (x & I & E); [destruct I|].
  simpl. destruct I as [->|I].
  - now rewrite E.
  - destruct (f y); [|reflexivity]. rewrite IH; [reflexivity|]. now exists x.
Qed.

Lemma filterOrThrow_some {A : Type} (f : A -> option bool) (p : A -> bool)
  (xs : list A) :
  (forall x, In x xs -> f x = Some (p x)) ->
  filterOrThrow f xs = Some (filter p xs).
Proof.
  induction xs as [|y t IH]; intros H; [reflexivity|].
  simpl. rewrite (H y (or_introl eq_refl)).
  rewrite IH by (intros x I; apply H; now right). reflexivity.
Qed.

(** The callback on one room: it throws on a truthy body that is no
    string, and otherwise tests the name and the text of the body. *)
Lemma matchesQuery_throws (lower : string -> string) (q : string)
  (r : Room.t) :
  bodyThrows r -> matchesQuery lower q r = None.
Proof.
  unfold bodyThrows, matchesQuery, roomPreview. now intros ->.
Qed.

Lemma matchesQuery_tests (lower : string -> string) (q : string)
  (r : Room.t) :
  ~ bodyThrows r ->
  matchesQuery lower q r
  = Some (JS.includes (lower (roomLabel r)) q
          || JS.includes (lower (bodyText r)) q).
Proof.
  unfold bodyThrows, matchesQuery, bodyText, roomPreview. intros N.
  destruct (Room.lastLiveBody r) as [|s|[|]]; simpl;
    [reflexivity | now destruct s | now elim N | reflexivity].
Qed.

Lemma filteredRoomsWith_empty (lower : string -> string)
  (rs : list Room.t) (query : string) :
  lower (JS.trim query) = "" -> filteredRoomsWith lower rs query = Some rs.
Proof. unfold filteredRoomsWith. now intros ->. Qed.

Lemma filteredRoomsWith_throws (lower : string -> string)
  (rs : list Room.t) (query : string) :
  lower (JS.trim query) <> "" ->
  (exists r, In r rs /\ bodyThrows r) ->
  filteredRoomsWith lower rs query = None.
Proof.
  intros N (r & I & T). unfold filteredRoomsWith.
  destruct (lower (JS.trim query)) eqn:Q; [now elim N|]. cbn [JS.truthyStr negb].
  apply filterOrThrow_none. exists r. split; [exact I|].
  now apply matchesQuery_throws.
Qed.

Lemma filteredRoomsWith_filter (lower : string -> string)
  (rs : list Room.t) (query : string) :
  lower (JS.trim query) <> "" ->
  (forall r, In r rs -> ~ bodyThrows r) ->
  filteredRoomsWith lower rs query
  = Some (filter (roomMatches lower query) rs).
Proof.
  intros N Ok. unfold filteredRoomsWith.
  destruct (lower (JS.trim query)) eqn:Q; [now elim N|]. cbn [JS.truthyStr negb].
  apply filterOrThrow_some. intros r I.
  rewrite (matchesQuery_tests _ _ _ (Ok r I)). unfold roomMatches.
  now rewrite Q.
Qed.

(** A filter that returned did not meet a throwing body, unless the query
    left nothing to search for. *)
Lemma filteredRoomsWith_returned (lower : string -> string)
  (rs kept : list Room.t) (query : string) :
  lower (JS.trim query) <> "" ->
  filteredRoomsWith lower rs query = Some kept ->
  (forall r, In r rs -> ~ bodyThrows r) /\
  kept = filter (roomMatches lower query) rs.
Proof.
  intros N H.
  assert (Ok : forall r, In r rs -> ~ bodyThrows r).
  { intros r I T. rewrite (filteredRoomsWith_throws lower rs query N) in H;
      [discriminate | now exists r]. }
  split; [exact Ok|].
  rewrite (filteredRoomsWith_filter lower rs query N Ok) in H. congruence.
Qed.


(* ------------------------------------------------------------------ *)
(** ** Room registry: the order after a refresh                         *)
(* ------------------------------------------------------------------ *)

Section SortByKey.
Variables (A : Type) (key : A -> Z).

Lemma insert_perm (x : A) (l : list A) :
  Permutation (x :: l) (JS.insert (byKeyDesc key) x l).
Proof.
  induction l as [|y t IH]; simpl; [apply Permutation_refl|].
  destruct (byKeyDesc key x y <=? 0)%Z; [apply Permutation_refl|].
  eapply perm_trans; [apply perm_swap | now apply perm_skip].
Qed.

Lemma sort_perm (l : list A) : Permutation l (JS.sort (byKeyDesc key) l).
Proof.
  induction l as [|x t IH]; simpl; [constructor|].
  eapply perm_trans; [apply perm_skip, IH | apply insert_perm].
Qed.

Lemma insert_sorted (x : A) (l : list A) :
  StronglySorted (keyGe key) l ->
  StronglySorted (keyGe key) (JS.insert (byKeyDesc key) x l).
Proof.
  induction 1 as [|y t St IH Hy]; simpl.
  - repeat constructor.
  - destruct (byKeyDesc key x y <=? 0)%Z eqn:E.
    + apply Z.leb_le in E. constructor; [now constructor|].
      constructor; [unfold keyGe, byKeyDesc in *; lia|].
      rewrite Forall_forall in Hy |- *. intros z Hz.
      specialize (Hy z Hz). unfold keyGe, byKeyDesc in *. lia.
    + apply Z.leb_gt in E. constructor; [exact IH|].
      rewrite Forall_forall in Hy |- *. intros z Hz.
      apply (Permutation_in _ (Permutation_sym (insert_perm x t))) in Hz.
      destruct Hz as [<-|Hz]; [unfold keyGe, byKeyDesc in *; lia | auto].
Qed.

Lemma sort_sorted (l : list A) :
  StronglySorted (keyGe key) (JS.sort (byKeyDesc key) l).
Proof.
  induction l as [|x t IH]; simpl; [constructor | now apply insert_sorted].
Qed.

(** The sort is stable: rooms of one key keep the order they came in. *)
Lemma insert_same_key (k : Z) (x : A) (l : list A) :
  filter (fun y => (key y =? k)%Z) (JS.insert (byKeyDesc key) x l)
  = filter (fun y => (key y =? k)%Z) (x :: l).
Proof.
  induction l as [|y t IH]; [reflexivity|]. cbn [JS.insert].
  destruct (byKeyDesc key x y <=? 0)%Z eqn:E; [reflexivity|].
  apply Z.leb_gt in E. unfold byKeyDesc in E.
  cbn [filter] in *. rewrite IH.
  destruct (key x =? k)%Z eqn:X, (key y =? k)%Z eqn:Y; try reflexivity.
  apply Z.eqb_eq in X, Y. lia.
Qed.

Lemma sort_stable (k : Z) (l : list A) :
  filter (fun y => (key y =? k)%Z) (JS.sort (byKeyDesc key) l)
  = filter (fun y => (key y =? k)%Z) l.
Proof.
  induction l as [|x t IH]; [reflexivity|].
  cbn [JS.sort fold_right]. fold (JS.sort (byKeyDesc key) t).
  rewrite insert_same_key. cbn [filter]. now rewrite IH.
Qed.


End SortByKey.

Lemma sortedRooms_perm (c : Client.t) :
  Permutation (Client.getRooms c) (sortedRooms c).
Proof. apply (sort_perm _ lastActive). Qed.

Lemma sortedRooms_sorted (c : Client.t) :
  StronglySorted (keyGe lastActive) (sortedRooms c).
Proof. apply (sort_sorted _ lastActive). Qed.

Lemma rooms_updateRooms (c : Client.t) (cap st : AppState) :
  rooms (updateRooms c cap st) = sortedRooms c.
Proof.
  unfold updateRooms. destruct (sortedRooms c) as [|r0 rs]; [reflexivity|].
  now destruct (negb (isMobile cap) && negb (JS.truthy (activeRoomId cap))).
Qed.




(* ------------------------------------------------------------------ *)
(** ** Timeline                                                         *)
(* ------------------------------------------------------------------ *)

Lemma getRoom_some (c : Client.t) (id : string) (r : Room.t) :
  Client.getRoom c id = Some r ->
  In r (Client.getRooms c) /\ Room.roomId r = id.
Proof.
  unfold Client.getRoom. intros H. apply find_some in H as [I E].
  split; [exact I | now apply String.eqb_eq].
Qed.

Lemma otherRoom_false (r : Room.t) (active : option string) :
  otherRoom r active = false <-> active = Some (Room.roomId r).
Proof.
  unfold otherRoom. destruct active as [id|]; split; intros H;
    try discriminate.
  - apply negb_false_iff, String.eqb_eq in H. now subst.
  - injection H as ->. now rewrite String.eqb_refl.
Qed.

Lemma activeRoomId_onRoomTimeline ev room toStart st :
  activeRoomId (onRoomTimeline ev room toStart st) = activeRoomId st.
Proof.
  unfold onRoomTimeline. destruct toStart, room as [r|]; try reflexivity.
  now destruct (otherRoom r (activeRoomId st)).
Qed.

Lemma client_onRoomTimeline ev room toStart st :
  client (onRoomTimeline ev room toStart st) = client st.
Proof.
  unfold onRoomTimeline. destruct toStart, room as [r|]; try reflexivity.
  now destruct (otherRoom r (activeRoomId st)).
Qed.

Lemma events_activeRoomEffect (st : AppState) :
  events (activeRoomEffect st)
  = match activeRoom st with
    | Some room => Room.liveEvents room
    | None => []
    end.
Proof.
  unfold activeRoomEffect, activeRoom.
  destruct (client st) as [c|]; [|reflexivity].
  destruct (activeRoomId st) as [id|]; [|reflexivity].
  destruct (JS.truthyStr id); [|reflexivity].
  now destruct (Client.getRoom c id).
Qed.

Lemma activeRoomId_activeRoomEffect (st : AppState) :
  activeRoomId (activeRoomEffect st) = activeRoomId st.
Proof.
  unfold activeRoomEffect. now destruct (activeRoom st), (client st).
Qed.

Lemma client_activeRoomEffect (st : AppState) :
  client (activeRoomEffect st) = client st.
Proof.
  unfold activeRoomEffect.
  destruct (activeRoom st); destruct (client st) eqn:E; simpl; now rewrite ?E.
Qed.

Lemma changeActiveRoom_changed (sel : option string) (st : AppState) :
  sameSelection (activeRoomId st) sel = false ->
  changeActiveRoom sel st = activeRoomEffect (setActiveRoomId sel st).
Proof. unfold changeActiveRoom, commit. simpl. now intros ->. Qed.

Lemma session_activeRoomEffect (st : AppState) :
  session (activeRoomEffect st) = session st.
Proof.
  unfold activeRoomEffect. now destruct (activeRoom st), (client st).
Qed.

Lemma session_onRoomTimeline ev room toStart st :
  session (onRoomTimeline ev room toStart st) = session st.
Proof.
  unfold onRoomTimeline. destruct toStart, room as [r|]; try reflexivity.
  now destruct (otherRoom r (activeRoomId st)).
Qed.

(** A read of the active room's timeline holds events of that room only,
    when the client files its events by room. *)
Lemma activeRoomEffect_reads (st : AppState) (id : string) :
  activeRoomId st = Some id -> clientWellFiled st ->
  Forall (fun e => getRoomId e = id) (events (activeRoomEffect st)).
Proof.
  intros A Wf. rewrite events_activeRoomEffect. unfold activeRoom.
  destruct (client st) as [c|] eqn:Cl; [|constructor]. rewrite A.
  destruct (JS.truthyStr id); [|constructor].
  destruct (Client.getRoom c id) as [r|] eqn:G; [|constructor].
  apply getRoom_some in G as [I <-].
  apply Forall_forall. intros e He. now apply (Wf c Cl r e).
Qed.

(** C1 (as amended): a change of the selection is first committed as a
    render that holds the new selection and the event sequence as it was,
    a live append to the previous room included.  The active-room effect
    that runs after this render replaces the sequence by a read of the
    selected room's live timeline in the client of that render, or by the
    empty sequence when nothing is selected or that client does not know
    the room; what the sequence held before is gone, and every event left
    belongs to the selected room.  The subscription effect of the same
    render hands a new client to [setClient], and the active-room effect
    then runs once more: the sequence becomes the selected room's live
    timeline in the store of the new client, and is empty while that
    client does not know the room. *)
Theorem selection_change_replaces_events
  (st : AppState) (ev : MatrixEvent) (roomA : Room.t) (sel : option string)
  (fresh : Client.t) :
  sameSelection (activeRoomId st) sel = false ->
  let appended := onRoomTimeline ev (Some roomA) false st in
  let rendered := setActiveRoomId sel appended in
  let settled := effectsOfSelection fresh rendered in
  let resettled := activeRoomEffect settled in
  (activeRoomId rendered = sel /\ events rendered = events appended) /\
  (activeRoomId settled = sel /\
   events settled
   = match activeRoom (setActiveRoomId sel st) with
     | Some room => Room.liveEvents room
     | None => []
     end /\
   (sel = None -> events settled = []) /\
   (forall c id, client st = Some c -> sel = Some id ->
                 Client.getRoom c id = None -> events settled = []) /\
   (forall c id, client st = Some c -> sel = Some id -> storeWellFiled c ->
                 Forall (fun e => getRoomId e = id) (events settled))) /\
  (session st <> None ->
   activeRoomId resettled = sel /\
   client resettled = Some fresh /\
   events resettled
   = match activeRoom (setClient (Some fresh) (setActiveRoomId sel st)) with
     | Some room => Room.liveEvents room
     | None => []
     end /\
   (forall id, sel = Some id -> Client.getRoom fresh id = None ->
               events resettled = []) /\
   (forall id, sel = Some id -> storeWellFiled fresh ->
               Forall (fun e => getRoomId e = id) (events resettled))).
Proof.
  intros Hsel appended rendered settled resettled.
  assert (Hc : client appended = client st)
    by apply client_onRoomTimeline.
  assert (Hs : session appended = session st)
    by apply session_onRoomTimeline.
  assert (Ev1 : events (activeRoomEffect rendered)
                = match activeRoom (setActiveRoomId sel st) with
                  | Some room => Room.liveEvents room
                  | None => []
                  end).
  { rewrite events_activeRoomEffect. unfold activeRoom, rendered. simpl.
    now rewrite Hc. }
  assert (Es : events settled = events (activeRoomEffect rendered)).
  { unfold settled, effectsOfSelection, subscriptionEffect.
    now destruct (session (activeRoomEffect rendered)). }
  assert (As : activeRoomId settled = sel).
  { unfold settled, effectsOfSelection, subscriptionEffect.
    destruct (session (activeRoomEffect rendered)); simpl;
      now rewrite activeRoomId_activeRoomEffect. }
  split; [split; reflexivity|].
  split.
  - split; [exact As|]. rewrite Es, Ev1. split; [reflexivity|].
    split; [|split].
    + intros ->. unfold activeRoom. simpl. now destruct (client st).
    + intros c id Cl -> G. unfold activeRoom. simpl.
      rewrite Cl, G. now destruct (JS.truthyStr id).
    + intros c id Cl -> Wf. unfold activeRoom. simpl. rewrite Cl.
      destruct (JS.truthyStr id); [|constructor].
      destruct (Client.getRoom c id) as [r|] eqn:G; [|constructor].
      apply getRoom_some in G as [I <-].
      apply Forall_forall. intros e He. now apply (Wf r e).
  - intros Ses.
    assert (Cs : client settled = Some fresh).
    { unfold settled, effectsOfSelection, subscriptionEffect.
      rewrite session_activeRoomEffect. unfold rendered. simpl. rewrite Hs.
      now destruct (session st). }
    assert (Ev2 : events resettled
                  = match activeRoom
                            (setClient (Some fresh) (setActiveRoomId sel st))
                    with
                    | Some room => Room.liveEvents room
                    | None => []
                    end).
    { unfold resettled. rewrite events_activeRoomEffect. unfold activeRoom.
      rewrite Cs, As. reflexivity. }
    split; [unfold resettled; now rewrite activeRoomId_activeRoomEffect|].
    split; [unfold resettled; now rewrite client_activeRoomEffect|].
    split; [exact Ev2|]. split.
    + intros id -> G. rewrite Ev2. unfold activeRoom. simpl. rewrite G.
      now destruct (JS.truthyStr id).
    + intros id E Wf. apply activeRoomEffect_reads; [now rewrite As|].
      intros c Cl. rewrite Cs in Cl. now injection Cl as <-.
Qed.

(** C2: a timeline notification that is historical, or carries no room, or
    a room other than the active one, leaves the whole state as it is; a
    live one for the active room changes the event sequence only, and the
    new event is its last entry, after a suffix of the old sequence. *)
Theorem onRoomTimeline_frame
  (ev : MatrixEvent) (room : option Room.t) (toStartOfTimeline : bool)
  (st : AppState) :
  (toStartOfTimeline = true -> onRoomTimeline ev room toStartOfTimeline st = st)
  /\
  (room = None -> onRoomTimeline ev room toStartOfTimeline st = st) /\
  (forall r, room = Some r -> activeRoomId st <> Some (Room.roomId r) ->
             onRoomTimeline ev room toStartOfTimeline st = st) /\
  (forall r, toStartOfTimeline = false -> room = Some r ->
             activeRoomId st = Some (Room.roomId r) ->
             onRoomTimeline ev room toStartOfTimeline st
             = setEvents (appendBounded ev) st /\
             exists dropped kept,
               events st = (dropped ++ kept)%list /\
               events (onRoomTimeline ev room toStartOfTimeline st)
               = (kept ++ [ev])%list).
Proof.
  split; [now intros ->|].
  split; [intros ->; now destruct toStartOfTimeline|].
  split.
  - intros r -> N. unfold onRoomTimeline.
    destruct toStartOfTimeline; [reflexivity|].
    destruct (otherRoom r (activeRoomId st)) eqn:O; [reflexivity|].
    now apply otherRoom_false in O.
  - intros r -> -> A. unfold onRoomTimeline.
    rewrite (proj2 (otherRoom_false r (activeRoomId st)) A).
    split; [reflexivity|]. simpl. unfold appendBounded.
    destruct (Nat.ltb 200 (List.length (events st ++ [ev])%list)) eqn:L.
    + unfold JS.arraySliceFrom.
      apply Nat.ltb_lt in L. rewrite length_app in L |- *. simpl in L |- *.
      exists (firstn (List.length (events st) + 1 - 200) (events st)),
             (skipn (List.length (events st) + 1 - 200) (events st)).
      split; [now rewrite firstn_skipn|].
      rewrite skipn_app.
      replace (List.length (events st) + 1 - 200
               - List.length (events st)) with 0 by lia.
      reflexivity.
    + now exists [], (events st).
Qed.

Lemma appendBounded_within (ev : MatrixEvent) (prev : list MatrixEvent) :
  List.length (prev ++ [ev])%list <= 200 ->
  appendBounded ev prev = (prev ++ [ev])%list.
Proof.
  intros H. unfold appendBounded.
  destruct (Nat.ltb 200 (List.length (prev ++ [ev])%list)) eqn:L;
    [apply Nat.ltb_lt in L; lia | reflexivity].
Qed.

Lemma appendBounded_beyond (ev : MatrixEvent) (prev : list MatrixEvent) :
  200 < List.length (prev ++ [ev])%list ->
  appendBounded ev prev
  = skipn (List.length (prev ++ [ev])%list - 200) (prev ++ [ev])%list.
Proof.
  intros H. unfold appendBounded, JS.arraySliceFrom.
  apply Nat.ltb_lt in H. now rewrite H.
Qed.

Lemma onRoomTimeline_live (ev : MatrixEvent) (r : Room.t) (st : AppState) :
  activeRoomId st = Some (Room.roomId r) ->
  events (onRoomTimeline ev (Some r) false st) = appendBounded ev (events st).
Proof.
  intros A. unfold onRoomTimeline.
  now rewrite (proj2 (otherRoom_false r (activeRoomId st)) A).
Qed.

Lemma onRoomTimeline_retention_length
  (ev : MatrixEvent) (r : Room.t) (st : AppState) :
  activeRoomId st = Some (Room.roomId r) ->
  200 < List.length (events st ++ [ev])%list ->
  List.length (events (onRoomTimeline ev (Some r) false st)) = 200.
Proof.
  intros A H.
  rewrite (onRoomTimeline_live ev r st A), (appendBounded_beyond ev _ H).
  rewrite length_skipn. lia.
Qed.

(** C3: a live append to the active room keeps the old entries and the new
    one when the sequence with the new entry holds at most 200; when it
    holds more, entries are dropped from the head and exactly the last 200,
    the most recent ones, remain. *)
Theorem onRoomTimeline_retention
  (ev : MatrixEvent) (r : Room.t) (st : AppState) :
  activeRoomId st = Some (Room.roomId r) ->
  let next := (events st ++ [ev])%list in
  let after := events (onRoomTimeline ev (Some r) false st) in
  (List.length next <= 200 -> after = next) /\
  (200 < List.length next ->
   List.length after = 200 /\
   after = skipn (List.length next - 200) next /\
   next = (firstn (List.length next - 200) next ++ after)%list).
Proof.
  intros A next after.
  assert (E : after = appendBounded ev (events st))
    by now apply onRoomTimeline_live.
  split; intros H.
  - rewrite E. now apply appendBounded_within.
  - rewrite E, (appendBounded_beyond ev (events st) H). fold next.
    split; [rewrite length_skipn; lia|].
    split; [reflexivity | now rewrite firstn_skipn].
Qed.

(** C10: a room selection copies the selected room's live timeline whole;
    a timeline of more than 200 events leaves more than 200 entries in the
    local sequence, and it is the next live append that brings it back to
    200. *)
Theorem changeActiveRoom_no_truncation
  (st : AppState) (c : Client.t) (id : string) (room : Room.t)
  (ev : MatrixEvent) :
  client st = Some c ->
  JS.truthyStr id = true ->
  Client.getRoom c id = Some room ->
  sameSelection (activeRoomId st) (Some id) = false ->
  200 < List.length (Room.liveEvents room) ->
  let selected := changeActiveRoom (Some id) st in
  events selected = Room.liveEvents room /\
  200 < List.length (events selected) /\
  List.length (events (onRoomTimeline ev (Some room) false selected)) = 200.
Proof.
  intros Cl T G Hsel Len selected.
  assert (E : selected = activeRoomEffect (setActiveRoomId (Some id) st))
    by now apply changeActiveRoom_changed.
  assert (Ev : events selected = Room.liveEvents room).
  { rewrite E, events_activeRoomEffect. unfold activeRoom. simpl.
    now rewrite Cl, T, G. }
  assert (A : activeRoomId selected = Some (Room.roomId room)).
  { rewrite E, activeRoomId_activeRoomEffect. simpl.
    apply getRoom_some in G as [_ ->]. reflexivity. }
  split; [exact Ev|]. split; [now rewrite Ev|].
  apply (onRoomTimeline_retention_length ev room selected A).
  rewrite length_app, Ev. simpl. lia.
Qed.

(* ------------------------------------------------------------------ *)
(** ** Typing display                                                   *)
(* ------------------------------------------------------------------ *)

Lemma truthyOnly_In (n : string) (l : list (option string)) :
  In n (truthyOnly l) -> n <> "" /\ In (Some n) l.
Proof.
  induction l as [|x t IH]; simpl; [easy|].
  destruct x as [[|c r]|]; simpl; intros H.
  - destruct (IH H). auto.
  - destruct H as [<-|H]; [split; [discriminate | now left]|].
    destruct (IH H). auto.
  - destruct (IH H). auto.
Qed.

Lemma typingNames_length (typing : list (option Member.t))
  (me : option string) : List.length (typingNames typing me) <= 3.
Proof. unfold typingNames, JS.arraySlice. apply firstn_le_length. Qed.

Lemma typingNames_In (typing : list (option Member.t)) (me : option string)
  (n : string) :
  In n (typingNames typing me) ->
  n <> "" /\ me <> Some n /\ exists m, In m typing /\ typingLabel m = Some n.
Proof.
  unfold typingNames, JS.arraySlice. rewrite skipn_O, Nat.sub_0_r. intros H.
  assert (F : In n (filter (notMe me)
                      (truthyOnly (map typingLabel typing)))).
  { rewrite <- (firstn_skipn 3 (filter _ _)).
    apply in_or_app. now left. }
  apply filter_In in F as [T Me].
  apply truthyOnly_In in T as [Ne Lab].
  apply in_map_iff in Lab as (m & Hm & Im).
  split; [exact Ne|]. split; [|now exists m].
  intros ->. simpl in Me. now rewrite String.eqb_refl in Me.
Qed.

Lemma typingUsers_updateTypingForActive (c : Client.t) (cap st : AppState) :
  typingUsers (updateTypingForActive c cap st) = [] \/
  exists room,
    Client.getRoom c (JS.orEmpty (activeRoomId cap)) = Some room /\
    typingUsers (updateTypingForActive c cap st)
    = typingNames (typingMembersOf room) (myUserId cap).
Proof.
  unfold updateTypingForActive.
  destruct (negb (JS.truthy (activeRoomId cap))); [now left|].
  destruct (Client.getRoom c (JS.orEmpty (activeRoomId cap))) as [room|];
    [right; now exists room | now left].
Qed.

(** C8: after a typing notification for the active room the displayed
    typing set holds at most 3 entries, none of them is the local user's
    own id, and every entry is the non-empty display label of a member the
    client reports as typing in that room. *)
Theorem onTyping_display (c : Client.t) (room : Room.t) (st : AppState) :
  activeRoomId st = Some (Room.roomId room) ->
  let shown := typingUsers (onTyping c (Some room) st) in
  List.length shown <= 3 /\
  (forall u, myUserId st = Some u -> ~ In u shown) /\
  (forall n, In n shown ->
     n <> "" /\
     exists known m,
       Client.getRoom c (Room.roomId room) = Some known /\
       Room.roomId known = Room.roomId room /\
       In m (typingMembersOf known) /\ typingLabel m = Some n).
Proof.
  intros A shown.
  assert (E : shown = typingUsers (updateTypingForActive c st st)).
  { unfold shown, onTyping.
    now rewrite (proj2 (otherRoom_false room (activeRoomId st)) A). }
  destruct (typingUsers_updateTypingForActive c st st)
    as [Nil|(known & G & Names)]; rewrite <- E in *.
  - rewrite Nil. split; [simpl; lia|]. split; [intros u _ []|intros n []].
  - rewrite A in G. simpl in G. rewrite Names.
    split; [apply typingNames_length|]. split.
    + intros u Hu I. apply typingNames_In in I as (_ & N & _). congruence.
    + intros n I. apply typingNames_In in I as (Ne & _ & m & Im & Lm).
      split; [exact Ne|]. exists known, m.
      destruct (getRoom_some _ _ _ G). auto.
Qed.

(* ------------------------------------------------------------------ *)
(** ** logout                                                           *)
(* ------------------------------------------------------------------ *)

Lemma logoutReset_cells (st : AppState) :
  logoutReset st
  = {| stored := None; session := None; client := None; rooms := [];
       activeRoomId := None; events := []; message := "";
       query := query st; isMobile := isMobile st;
       newChatOpen := newChatOpen st; newChatInput := newChatInput st;
       newChatBusy := newChatBusy st; typingUsers := [] |}.
Proof. reflexivity. Qed.

(** C7: [logout] sends the server-side logout when there is a client, and
    whether that call settles or throws it then clears the persisted
    session and empties session, client, room list, active room, event
    sequence, composer text and typing set, all of them, from whatever
    state the app is in. *)
Theorem logout_resets_everything
  (serverLogout : Completion) (st resumed : AppState) :
  fst (logout serverLogout st resumed)
  = match client st with Some _ => [ServerLogout] | None => [] end /\
  snd (logout serverLogout st resumed) = logoutReset resumed /\
  snd (logout Throw st resumed) = snd (logout Normal st resumed) /\
  let after := snd (logout serverLogout st resumed) in
  stored after = None /\ session after = None /\ client after = None /\
  rooms after = [] /\ activeRoomId after = None /\ events after = [] /\
  message after = "" /\ typingUsers after = [].
Proof.
  unfold logout, logoutAttempt.
  destruct (client st), serverLogout; simpl; repeat split; reflexivity.
Qed.

(* ------------------------------------------------------------------ *)
(** ** The event sequence belongs to the selected room, always          *)
(* ------------------------------------------------------------------ *)

Lemma sameSelection_eq (a b : option string) :
  sameSelection a b = true -> a = b.
Proof.
  destruct a, b; simpl; try discriminate; [|reflexivity].
  intros H. apply String.eqb_eq in H. now subst.
Qed.

Lemma activeRoomEffect_belongs (st : AppState) :
  clientWellFiled st -> eventsOfActive (activeRoomEffect st).
Proof.
  intros Wf. unfold eventsOfActive.
  rewrite activeRoomId_activeRoomEffect, events_activeRoomEffect.
  unfold activeRoom.
  destruct (activeRoomId st) as [id|]; [|now destruct (client st)].
  destruct (client st) as [c|] eqn:Cl; [|constructor].
  destruct (JS.truthyStr id); [|constructor].
  destruct (Client.getRoom c id) as [r|] eqn:G; [|constructor].
  apply getRoom_some in G as [I <-].
  apply Forall_forall. intros e He. now apply (Wf c Cl r e).
Qed.

Lemma commit_belongs (before after : AppState) :
  clientWellFiled after -> events after = events before ->
  eventsOfActive before -> eventsOfActive (commit before after).
Proof.
  intros Wf Ev Inv. unfold commit.
  destruct (sameSelection (activeRoomId before) (activeRoomId after)) eqn:S;
    [|now apply activeRoomEffect_belongs].
  apply sameSelection_eq in S. unfold eventsOfActive in *.
  now rewrite <- S, Ev.
Qed.

Lemma commit_client (before after : AppState) :
  client (commit before after) = client after.
Proof.
  unfold commit.
  destruct (sameSelection _ _); [reflexivity | apply client_activeRoomEffect].
Qed.

Lemma updateRooms_keeps (c : Client.t) (cap st : AppState) :
  client (updateRooms c cap st) = client st /\
  events (updateRooms c cap st) = events st.
Proof.
  unfold updateRooms. destruct (sortedRooms c); [now split|].
  now destruct (negb (isMobile cap) && negb (JS.truthy (activeRoomId cap))).
Qed.

Lemma updateTypingForActive_keeps (c : Client.t) (cap st : AppState) :
  client (updateTypingForActive c cap st) = client st /\
  events (updateTypingForActive c cap st) = events st /\
  activeRoomId (updateTypingForActive c cap st) = activeRoomId st.
Proof.
  unfold updateTypingForActive.
  destruct (negb (JS.truthy (activeRoomId cap))); [now repeat split|].
  now destruct (Client.getRoom c (JS.orEmpty (activeRoomId cap))).
Qed.

Lemma appendBounded_Forall (P : MatrixEvent -> Prop) (ev : MatrixEvent)
  (prev : list MatrixEvent) :
  P ev -> Forall P prev -> Forall P (appendBounded ev prev).
Proof.
  intros Pe Pp.
  assert (All : Forall P (prev ++ [ev])%list)
    by (apply Forall_app; split; [exact Pp | now constructor]).
  unfold appendBounded, JS.arraySliceFrom.
  destruct (Nat.ltb 200 (List.length (prev ++ [ev])%list)); [|exact All].
  rewrite Forall_forall in All |- *. intros e He. apply All.
  rewrite <- (firstn_skipn (List.length (prev ++ [ev])%list - 200)).
  apply in_or_app. now right.
Qed.

Lemma step_preserves (st st' : AppState) :
  step st st' ->
  clientWellFiled st /\ eventsOfActive st ->
  clientWellFiled st' /\ eventsOfActive st'.
Proof.
  intros Step [Wf Inv]. destruct Step as
    [c st Wc | c st Wc | id st | c state st | c st
    | ev room back st Hev | c room st | how st0 st].
  - split; [|exact Inv]. intros c' E. simpl in E. now injection E as <-.
  - assert (W : clientWellFiled (setClient (Some c) st))
      by (intros c' E; simpl in E; now injection E as <-).
    split; [|now apply activeRoomEffect_belongs].
    intros c' E. unfold clientReplaced in E.
    rewrite client_activeRoomEffect in E. now apply W.
  - unfold changeActiveRoom. split.
    + intros c E. rewrite commit_client in E. now apply Wf.
    + now apply commit_belongs.
  - unfold onSync. destruct (String.eqb state "PREPARED"); [|now split].
    destruct (updateRooms_keeps c st st) as [C1 E1].
    destruct (updateTypingForActive_keeps c st (updateRooms c st st))
      as (C2 & E2 & _).
    split.
    + intros c' E. rewrite commit_client, C2, C1 in E. now apply Wf.
    + apply commit_belongs; [|congruence | exact Inv].
      intros c' E. rewrite C2, C1 in E. now apply Wf.
  - unfold onRoom. destruct (updateRooms_keeps c st st) as [C1 E1]. split.
    + intros c' E. rewrite commit_client, C1 in E. now apply Wf.
    + apply commit_belongs; [|exact E1 | exact Inv].
      intros c' E. rewrite C1 in E. now apply Wf.
  - split.
    + intros c E. rewrite client_onRoomTimeline in E. now apply Wf.
    + unfold onRoomTimeline. destruct back; [exact Inv|].
      destruct room as [r|]; [|exact Inv].
      destruct (otherRoom r (activeRoomId st)) eqn:O; [exact Inv|].
      apply otherRoom_false in O. unfold eventsOfActive in *. simpl.
      rewrite O in *. apply appendBounded_Forall; [|exact Inv].
      now apply Hev.
  - unfold onTyping. destruct room as [r|]; [|now split].
    destruct (otherRoom r (activeRoomId st)); [now split|].
    destruct (updateTypingForActive_keeps c st st) as (C & E & A).
    split.
    + intros c' E'. rewrite C in E'. now apply Wf.
    + unfold eventsOfActive. now rewrite A, E.
  - unfold logout. destruct (logoutAttempt how st0) as [sent body].
    destruct body; simpl; split; try reflexivity; intros c E; discriminate E.
Qed.

(** The invariant of the data model, between the listeners: in every state
    the app reaches once the effects of a render have run, the event
    sequence holds events of the selected room only, and nothing while no
    room is selected. *)
Theorem events_belong_to_active_room (st : AppState) :
  reachable st -> eventsOfActive st.
Proof.
  intros R.
  enough (clientWellFiled st /\ eventsOfActive st) as [_ H] by exact H.
  induction R as [loaded mobile | st st' _ IH Step].
  - split; [intros c E; discriminate E | reflexivity].
  - now apply (step_preserves st st').
Qed.

(* ------------------------------------------------------------------ *)
(** ** The properties on the reference data                             *)
(* ------------------------------------------------------------------ *)

Lemma sample_store_wellFiled : storeWellFiled Sample.store.
Proof.
  intros r e Hr He. simpl in Hr.
  destruct Hr as [<-|[<-|[<-|[<-|[<-|[]]]]]].
  1-4: simpl in He; now repeat destruct He as [<-|He].
  apply repeat_spec in He. now subst e.
Qed.

Lemma selection_change_replaces_events_witness :
  let ev := Sample.text "$a2" "!a:example.org" "@bob:example.org" "bye" in
  let appended := onRoomTimeline ev (Some Sample.roomA) false Sample.state in
  let rendered := setActiveRoomId (Some "!b:example.org") appended in
  let settled := effectsOfSelection Stores.unsynced rendered in
  sameSelection (activeRoomId Sample.state) (Some "!b:example.org") = false /\
  events rendered = (Room.liveEvents Sample.roomA ++ [ev])%list /\
  events settled = Room.liveEvents Sample.roomB /\
  Forall (fun e => getRoomId e = "!b:example.org") (events settled) /\
  events (activeRoomEffect settled) = [].
Proof.
  intros ev appended rendered settled. split; [reflexivity|].
  destruct (selection_change_replaces_events Sample.state ev Sample.roomA
              (Some "!b:example.org") Stores.unsynced eq_refl)
    as ((_ & R) & (_ & E & _ & _ & F) & N).
  split; [exact R|]. split; [exact E|].
  split; [exact (F Sample.store "!b:example.org" eq_refl eq_refl
                   sample_store_wellFiled)|].
  destruct (N ltac:(discriminate)) as (_ & _ & _ & G & _).
  exact (G "!b:example.org" eq_refl eq_refl).
Defined.

(** C1 (as stated) fails: the render that commits a new selection still
    holds the events of the room selected before. *)
Lemma selection_render_holds_previous_events :
  let rendered := setActiveRoomId (Some "!b:example.org") Sample.state in
  sameSelection (activeRoomId Sample.state) (Some "!b:example.org") = false /\
  clientWellFiled Sample.state /\
  eventsOfActive Sample.state /\
  activeRoomId rendered = Some "!b:example.org" /\
  events rendered
  = [Sample.text "$a1" "!a:example.org" "@bob:example.org" "see you"] /\
  ~ eventsOfActive rendered /\
  ~ (forall st sel,
       sameSelection (activeRoomId st) sel = false ->
       clientWellFiled st -> eventsOfActive st ->
       eventsOfActive (setActiveRoomId sel st)).
Proof.
  intros rendered.
  assert (Wf : clientWellFiled Sample.state).
  { intros c E. injection E as <-. apply sample_store_wellFiled. }
  assert (Inv : eventsOfActive Sample.state).
  { unfold eventsOfActive. simpl. now repeat constructor. }
  assert (Mix : ~ eventsOfActive rendered).
  { unfold eventsOfActive. simpl. intros H.
    apply Forall_inv in H. discriminate H. }
  split; [reflexivity|]. split; [exact Wf|]. split; [exact Inv|].
  split; [reflexivity|]. split; [reflexivity|]. split; [exact Mix|].
  intros H. apply Mix.
  apply (H Sample.state (Some "!b:example.org")); [reflexivity | | ]; assumption.
Qed.

Lemma onRoomTimeline_frame_witness :
  let ev := Sample.text "$x" "!a:example.org" "@bob:example.org" "bye" in
  onRoomTimeline ev (Some Sample.roomA) true Sample.state = Sample.state /\
  onRoomTimeline ev (Some Sample.roomB) false Sample.state = Sample.state /\
  onRoomTimeline ev (Some Sample.roomA) false Sample.state
  = setEvents (appendBounded ev) Sample.state.
Proof.
  intros ev. split; [|split].
  - apply (proj1 (onRoomTimeline_frame ev (Some Sample.roomA) true
                    Sample.state)). reflexivity.
  - destruct (onRoomTimeline_frame ev (Some Sample.roomB) false Sample.state)
      as (_ & _ & H & _).
    apply (H Sample.roomB eq_refl). discriminate.
  - destruct (onRoomTimeline_frame ev (Some Sample.roomA) false Sample.state)
      as (_ & _ & _ & H).
    apply (H Sample.roomA eq_refl eq_refl eq_refl).
Defined.

Lemma onRoomTimeline_retention_witness :
  let ev := Sample.text "$x" "!l:example.org" "@bob:example.org" "tock" in
  let long := changeActiveRoom (Some "!l:example.org") Sample.state in
  activeRoomId long = Some (Room.roomId Sample.roomLong) /\
  List.length (events long) = 201 /\
  List.length (events (onRoomTimeline ev (Some Sample.roomLong) false long))
  = 200.
Proof.
  intros ev long. split; [reflexivity|]. split; [reflexivity|].
  apply (proj2 (onRoomTimeline_retention ev Sample.roomLong long eq_refl)).
  vm_compute. lia.
Defined.

Lemma changeActiveRoom_no_truncation_witness :
  let ev := Sample.text "$x" "!l:example.org" "@bob:example.org" "tock" in
  let selected := changeActiveRoom (Some "!l:example.org") Sample.state in
  Client.getRoom Sample.store "!l:example.org" = Some Sample.roomLong /\
  List.length (Room.liveEvents Sample.roomLong) = 201 /\
  events selected = Room.liveEvents Sample.roomLong /\
  200 < List.length (events selected) /\
  List.length (events (onRoomTimeline ev (Some Sample.roomLong) false
                         selected)) = 200.
Proof.
  intros ev selected. split; [reflexivity|]. split; [reflexivity|].
  apply (changeActiveRoom_no_truncation Sample.state Sample.store
           "!l:example.org" Sample.roomLong ev); try reflexivity.
  vm_compute. lia.
Defined.





Lemma onTyping_display_witness :
  let shown :=
    typingUsers (onTyping Sample.store (Some Sample.roomA) Sample.state) in
  activeRoomId Sample.state = Some (Room.roomId Sample.roomA) /\
  List.length shown <= 3 /\
  ~ In Sample.alice shown.
Proof.
  intros shown. split; [reflexivity|].
  destruct (onTyping_display Sample.store Sample.roomA Sample.state eq_refl)
    as (L & Me & _).
  split; [exact L | exact (Me Sample.alice eq_refl)].
Defined.

(* ================================================================== *)
(** * Further properties of the code                                    *)
(* ================================================================== *)

(* ------------------------------------------------------------------ *)
(** ** normalizeHomeserver                                              *)
(* ------------------------------------------------------------------ *)

Lemma trim_trimEnd_fixed (s : string) : JS.trimEnd (JS.trim s) = JS.trim s.
Proof. unfold JS.trim. apply JSFacts.trimEnd_idem. Qed.

Lemma normalizeHomeserver_cases (hs : option string) :
  let v := JS.trim (JS.orEmpty hs) in
  (v = "" /\ normalizeHomeserver hs = "") \/
  (v <> "" /\
   JS.startsWith v "http://" || JS.startsWith v "https://" = true /\
   normalizeHomeserver hs = v) \/
  (v <> "" /\
   JS.startsWith v "http://" || JS.startsWith v "https://" = false /\
   normalizeHomeserver hs = "https://" ++ v).
Proof.
  intros v. unfold normalizeHomeserver. fold v.
  destruct v as [|c r] eqn:V; [now left|]. right.
  cbn [JS.truthyStr negb].
  destruct (JS.startsWith (String c r) "http://"
            || JS.startsWith (String c r) "https://") eqn:E;
    [left | right]; repeat split; discriminate.
Qed.

(** A second pass of [normalizeHomeserver] changes nothing. *)
Theorem normalizeHomeserver_idempotent (hs : option string) :
  normalizeHomeserver (Some (normalizeHomeserver hs)) = normalizeHomeserver hs.
Proof.
  destruct (normalizeHomeserver_cases hs)
    as [[_ ->]|[(N & S & ->)|(N & S & ->)]]; [reflexivity| |].
  - unfold normalizeHomeserver. cbn [JS.orEmpty].
    rewrite JSFacts.trim_idem, S.
    destruct (JS.trim (JS.orEmpty hs)); [now elim N | reflexivity].
  - assert (T : JS.trim ("https://" ++ JS.trim (JS.orEmpty hs))
                = "https://" ++ JS.trim (JS.orEmpty hs)).
    { apply (JSFacts.trim_fixed "h" "ttps://" (JS.trim (JS.orEmpty hs)));
        [reflexivity | exact N | apply trim_trimEnd_fixed]. }
    unfold normalizeHomeserver at 1. cbn [JS.orEmpty]. rewrite T.
    assert (P : JS.startsWith ("https://" ++ JS.trim (JS.orEmpty hs))
                  "https://" = true)
      by apply (JSFacts.prefix_app "https://").
    rewrite P, orb_true_r. reflexivity.
Qed.

(** [normalizeHomeserver] answers the empty string exactly for a blank
    input, and otherwise the trimmed input behind a scheme: its own
    [http://] or [https://], or the [https://] put in front of it. *)
Theorem normalizeHomeserver_scheme (hs : option string) :
  (normalizeHomeserver hs = "" <-> JS.trim (JS.orEmpty hs) = "") /\
  (normalizeHomeserver hs <> "" ->
   (JS.startsWith (normalizeHomeserver hs) "http://" = true \/
    JS.startsWith (normalizeHomeserver hs) "https://" = true) /\
   (normalizeHomeserver hs = JS.trim (JS.orEmpty hs) \/
    normalizeHomeserver hs = "https://" ++ JS.trim (JS.orEmpty hs))).
Proof.
  destruct (normalizeHomeserver_cases hs)
    as [[V ->]|[(N & S & ->)|(N & S & ->)]].
  - split; [now split | intros H; now elim H].
  - split; [split; intros H; [now elim N | exact H]|].
    intros _. split; [now apply orb_true_iff | now left].
  - split; [split; intros H; [discriminate H | now elim N]|].
    intros _. split; [right; apply (JSFacts.prefix_app "https://")|now right].
Qed.

Lemma normalizeHomeserver_scheme_witness :
  normalizeHomeserver (Some " example.org ") <> "" /\
  JS.startsWith (normalizeHomeserver (Some " example.org ")) "https://"
  = true.
Proof.
  split; [discriminate|].
  destruct (normalizeHomeserver_scheme (Some " example.org ")) as [_ H].
  destruct (H ltac:(discriminate)) as [[S|S] _]; [discriminate S | exact S].
Defined.

(* ------------------------------------------------------------------ *)
(** ** truncateMiddle                                                   *)
(* ------------------------------------------------------------------ *)

Lemma string_length_app (a b : string) :
  String.length (a ++ b) = String.length a + String.length b.
Proof. induction a as [|c a IH]; simpl; [reflexivity | now rewrite IH]. Qed.

Lemma substring_length (s : string) (n m : nat) :
  n + m <= String.length s -> String.length (String.substring n m s) = m.
Proof.
  revert n m; induction s as [|c s IH]; intros n m H; simpl in H.
  - assert (n = 0) by lia. assert (m = 0) by lia. now subst.
  - destruct n as [|n]; [destruct m as [|m]|]; simpl; [reflexivity| |].
    + rewrite IH; [reflexivity | lia].
    + apply IH. lia.
Qed.

Lemma halves_sum (n : Z) :
  (JSMore.ceilHalf n + JSMore.floorHalf n = n)%Z.
Proof.
  unfold JSMore.ceilHalf, JSMore.floorHalf. Z.div_mod_to_equations. lia.
Qed.

Lemma halves_nonneg (n : Z) :
  (0 <= n)%Z ->
  (0 <= JSMore.floorHalf n <= JSMore.ceilHalf n)%Z /\
  (JSMore.ceilHalf n <= n)%Z.
Proof.
  unfold JSMore.ceilHalf, JSMore.floorHalf. intros H.
  Z.div_mod_to_equations. lia.
Qed.

Lemma sliceBetween_head (s : string) (n : Z) :
  (0 <= n <= Z.of_nat (String.length s))%Z ->
  JSMore.sliceBetween s 0 n = String.substring 0 (Z.to_nat n) s.
Proof.
  intros H. unfold JSMore.sliceBetween, JSMore.relativeIndex.
  replace (0 <? 0)%Z with false by reflexivity.
  replace (n <? 0)%Z with false by (symmetry; apply Z.ltb_ge; lia).
  rewrite !Z.min_l by lia. now rewrite Z.sub_0_r.
Qed.

Lemma sliceFrom_tail (s : string) (n : Z) :
  (0 <= n <= Z.of_nat (String.length s))%Z ->
  JSMore.sliceFrom s (Z.of_nat (String.length s) - n)
  = String.substring (String.length s - Z.to_nat n) (Z.to_nat n) s.
Proof.
  intros H. unfold JSMore.sliceFrom, JSMore.sliceBetween, JSMore.relativeIndex.
  replace (Z.of_nat (String.length s) - n <? 0)%Z with false
    by (symmetry; apply Z.ltb_ge; lia).
  replace (Z.of_nat (String.length s) <? 0)%Z with false
    by (symmetry; apply Z.ltb_ge; lia).
  rewrite Z.min_l, Z.min_id by lia.
  f_equal; lia.
Qed.

(** The answer for a string longer than [max]. *)
Lemma truncateMiddle_long (s : string) (max : Z) :
  (3 <= max < Z.of_nat (String.length s))%Z ->
  truncateMiddle (Some s) max
  = Some (String.substring 0 (Z.to_nat (JSMore.ceilHalf (max - 3))) s
          ++ "..."
          ++ String.substring
               (String.length s - Z.to_nat (JSMore.floorHalf (max - 3)))
               (Z.to_nat (JSMore.floorHalf (max - 3))) s).
Proof.
  intros [M L]. unfold truncateMiddle.
  destruct (halves_nonneg (max - 3) ltac:(lia)) as [[F0 FC] CM].
  assert (T : JS.truthyStr s = true) by (destruct s; [simpl in L; lia|easy]).
  replace (Z.of_nat (String.length s) <=? max)%Z with false
    by (symmetry; apply Z.leb_gt; lia).
  rewrite T. cbn [negb orb].
  rewrite sliceBetween_head, sliceFrom_tail by lia. reflexivity.
Qed.

Lemma truncateMiddle_short (s : string) :
  exists r, truncateMiddle (Some s) 18 = Some r /\ String.length r <= 18.
Proof.
  destruct (Z_le_gt_dec (Z.of_nat (String.length s)) 18) as [L|G].
  - exists s. split; [|lia]. unfold truncateMiddle.
    replace (Z.of_nat (String.length s) <=? 18)%Z with true
      by (symmetry; apply Z.leb_le; lia).
    now rewrite orb_true_r.
  - eexists. split; [apply truncateMiddle_long; lia|].
    rewrite !string_length_app, !substring_length by (simpl; lia).
    simpl. lia.
Qed.

(** For [max >= 3] the answer of [truncateMiddle] never exceeds [max]
    characters: a string that fits is returned as it is, a longer one
    becomes exactly [max] long, its first [ceil((max-3)/2)] characters,
    three dots and its last [floor((max-3)/2)] characters. *)
Theorem truncateMiddle_fits (s : string) (max : Z) :
  (3 <= max)%Z ->
  exists r,
    truncateMiddle (Some s) max = Some r /\
    (Z.of_nat (String.length r) <= max)%Z /\
    ((Z.of_nat (String.length s) <= max)%Z -> r = s) /\
    ((max < Z.of_nat (String.length s))%Z ->
     Z.of_nat (String.length r) = max /\
     r = String.substring 0 (Z.to_nat (JSMore.ceilHalf (max - 3))) s
         ++ "..."
         ++ String.substring
              (String.length s - Z.to_nat (JSMore.floorHalf (max - 3)))
              (Z.to_nat (JSMore.floorHalf (max - 3))) s).
Proof.
  intros M.
  destruct (Z_le_gt_dec (Z.of_nat (String.length s)) max) as [L|G].
  - exists s. split.
    + unfold truncateMiddle.
      replace (Z.of_nat (String.length s) <=? max)%Z with true
        by (symmetry; apply Z.leb_le; lia).
      now rewrite orb_true_r.
    + split; [exact L|]. split; [reflexivity | lia].
  - destruct (halves_nonneg (max - 3) ltac:(lia)) as [[F0 FC] CM].
    pose proof (halves_sum (max - 3)) as Sum.
    eexists. split; [apply truncateMiddle_long; lia|].
    assert (Len : Z.of_nat
                    (String.length
                       (String.substring 0
                          (Z.to_nat (JSMore.ceilHalf (max - 3))) s
                        ++ "..."
                        ++ String.substring
                             (String.length s
                              - Z.to_nat (JSMore.floorHalf (max - 3)))
                             (Z.to_nat (JSMore.floorHalf (max - 3))) s))
                  = max).
    { rewrite !string_length_app, !substring_length by lia.
      simpl String.length. lia. }
    split; [lia|]. split; [lia | now split].
Qed.

Lemma truncateMiddle_fits_witness :
  (3 <= 18)%Z /\
  truncateMiddle (Some "@bartholomew:example.org") 18
  = Some "@barthol...ple.org".
Proof.
  split; [lia|].
  destruct (truncateMiddle_fits "@bartholomew:example.org" 18 ltac:(lia))
    as (r & E & _ & _ & L).
  rewrite E. f_equal. apply (proj2 (L ltac:(simpl; lia))).
Defined.

(* ------------------------------------------------------------------ *)
(** ** Room filter: refining the query                                  *)
(* ------------------------------------------------------------------ *)

Lemma string_app_assoc (a b c : string) : (a ++ b) ++ c = a ++ b ++ c.
Proof. induction a as [|x a IH]; simpl; [reflexivity | now rewrite IH]. Qed.

Lemma includes_trans (a b c : string) :
  JS.includes a b = true -> JS.includes b c = true -> JS.includes a c = true.
Proof.
  rewrite !JSFacts.includes_iff.
  intros (x & y & ->) (u & w & ->).
  exists (x ++ u), (w ++ y). now rewrite !string_app_assoc.
Qed.

Lemma includes_empty_only (q : string) :
  JS.includes "" q = true -> q = "".
Proof.
  intros H. apply JSFacts.includes_split in H as (a & b & E).
  destruct a; [|discriminate E]. now destruct q.
Qed.

Lemma filter_narrow {A : Type} (p q : A -> bool) (l : list A) :
  (forall x, q x = true -> p x = true) ->
  filter q (filter p l) = filter q l.
Proof.
  intros H. induction l as [|x l IH]; [reflexivity|]. simpl.
  destruct (p x) eqn:P; simpl; rewrite IH; [reflexivity|].
  destruct (q x) eqn:Q; [|reflexivity].
  rewrite (H x Q) in P. discriminate P.
Qed.

(** Refining the query narrows the list: when the lower-cased trimmed
    query [q2] contains the lower-cased trimmed query [q1], whatever
    [toLowerCase] does to a string, and the filter returns for both, then
    filtering by [q2] gives the same whether it starts from all rooms or
    from the rooms [q1] kept, and keeps no room that [q1] drops. *)
Theorem filteredRooms_refine (lower : string -> string)
  (rs kept1 kept2 : list Room.t) (q1 q2 : string) :
  JS.includes (lower (JS.trim q2)) (lower (JS.trim q1)) = true ->
  filteredRoomsWith lower rs q1 = Some kept1 ->
  filteredRoomsWith lower rs q2 = Some kept2 ->
  filteredRoomsWith lower kept1 q2 = Some kept2 /\
  (forall r, In r kept2 -> In r kept1).
Proof.
  intros Sub H1 H2.
  destruct (String.string_dec (lower (JS.trim q1)) "") as [E1|N1].
  - rewrite (filteredRoomsWith_empty lower rs q1 E1) in H1.
    injection H1 as <-. split; [exact H2|].
    destruct (String.string_dec (lower (JS.trim q2)) "") as [E2|N2].
    + rewrite (filteredRoomsWith_empty lower rs q2 E2) in H2.
      now injection H2 as <-.
    + destruct (filteredRoomsWith_returned lower rs kept2 q2 N2 H2)
        as [_ ->].
      intros r I. now apply filter_In in I.
  - assert (N2 : lower (JS.trim q2) <> "").
    { intros E2. rewrite E2 in Sub. apply includes_empty_only in Sub.
      now apply N1. }
    destruct (filteredRoomsWith_returned lower rs kept1 q1 N1 H1)
      as [Ok ->].
    destruct (filteredRoomsWith_returned lower rs kept2 q2 N2 H2)
      as [_ ->].
    assert (Narrow : forall r, roomMatches lower q2 r = true ->
                               roomMatches lower q1 r = true).
    { intros r. unfold roomMatches. rewrite !orb_true_iff.
      intros [H|H]; [left | right]; exact (includes_trans _ _ _ H Sub). }
    split.
    + rewrite filteredRoomsWith_filter; [|exact N2|].
      * f_equal. now apply filter_narrow.
      * intros r I. apply filter_In in I. now apply Ok.
    + intros r I. apply filter_In in I as [I M]. apply filter_In.
      split; [exact I | now apply Narrow].
Qed.

Lemma filteredRooms_refine_witness :
  let rs := [Sample.roomA; Sample.roomQuiet; Sample.roomB] in
  JS.includes (JS.toLowerCase (JS.trim " ALICE "))
    (JS.toLowerCase (JS.trim "al")) = true /\
  filteredRoomsOf rs "al" = Some [Sample.roomA] /\
  filteredRoomsOf rs " ALICE " = Some [Sample.roomA] /\
  filteredRoomsOf [Sample.roomA] " ALICE " = Some [Sample.roomA].
Proof.
  intros rs. split; [reflexivity|]. split; [reflexivity|].
  split; [reflexivity|].
  apply (proj1 (filteredRooms_refine JS.toLowerCase rs [Sample.roomA]
                  [Sample.roomA] "al" " ALICE " eq_refl eq_refl eq_refl)).
Defined.

(* ------------------------------------------------------------------ *)
(** ** Room registry: the automatic selection                           *)
(* ------------------------------------------------------------------ *)

Lemma sameSelection_refl (a : option string) : sameSelection a a = true.
Proof. destruct a; simpl; [apply String.eqb_refl | reflexivity]. Qed.

Lemma activeRoomId_commit (before after : AppState) :
  activeRoomId (commit before after) = activeRoomId after.
Proof.
  unfold commit. destruct (sameSelection _ _);
    [reflexivity | apply activeRoomId_activeRoomEffect].
Qed.

Lemma rooms_commit (before after : AppState) :
  rooms (commit before after) = rooms after.
Proof.
  unfold commit. destruct (sameSelection _ _); [reflexivity|].
  unfold activeRoomEffect. now destruct (activeRoom after), (client after).
Qed.

Lemma commit_same (before after : AppState) :
  activeRoomId after = activeRoomId before -> commit before after = after.
Proof. intros E. unfold commit. now rewrite E, sameSelection_refl. Qed.

Lemma activeRoomId_updateRooms_kept (c : Client.t) (cap st : AppState) :
  isMobile cap = true \/ JS.truthy (activeRoomId cap) = true \/
  Client.getRooms c = [] ->
  activeRoomId (updateRooms c cap st) = activeRoomId st.
Proof.
  intros H. unfold updateRooms.
  destruct (sortedRooms c) as [|r0 rest] eqn:S; [reflexivity|].
  destruct H as [->|[->|E]]; [reflexivity | now rewrite andb_false_r |].
  pose proof (sortedRooms_perm c) as P. rewrite E, S in P.
  now apply Permutation_nil in P.
Qed.

Lemma sortedRooms_head (c : Client.t) (r0 : Room.t) (rest : list Room.t) :
  sortedRooms c = r0 :: rest ->
  In r0 (Client.getRooms c) /\
  forall r, In r (Client.getRooms c) -> (lastActive r <= lastActive r0)%Z.
Proof.
  intros S. pose proof (sortedRooms_perm c) as P.
  pose proof (sortedRooms_sorted c) as St. rewrite S in P, St.
  split.
  - apply (Permutation_in _ (Permutation_sym P)). now left.
  - intros r I. apply (Permutation_in _ P) in I.
    destruct I as [<-|I]; [lia|].
    apply StronglySorted_inv in St as [_ All].
    rewrite Forall_forall in All. exact (All r I).
Qed.

(** The automatic selection after a room-set notification.  On a narrow
    screen, with a room already selected, or with no room at all, the
    selection and the event sequence stay as they are.  On a wide screen
    with nothing selected, the room that heads the refreshed list is
    selected: a room of the client whose last-activity timestamp no other
    room exceeds. *)
Theorem onRoom_auto_select (c : Client.t) (st : AppState) :
  (isMobile st = true \/ JS.truthy (activeRoomId st) = true \/
   Client.getRooms c = [] ->
   activeRoomId (onRoom c st) = activeRoomId st /\
   events (onRoom c st) = events st) /\
  (isMobile st = false -> JS.truthy (activeRoomId st) = false ->
   Client.getRooms c <> [] ->
   exists r0 rest,
     rooms (onRoom c st) = r0 :: rest /\
     activeRoomId (onRoom c st) = Some (Room.roomId r0) /\
     In r0 (Client.getRooms c) /\
     forall r, In r (Client.getRooms c) ->
               (lastActive r <= lastActive r0)%Z).
Proof.
  unfold onRoom. split.
  - intros H. pose proof (activeRoomId_updateRooms_kept c st st H) as K.
    rewrite (commit_same _ _ K). split; [exact K|].
    apply (updateRooms_keeps c st st).
  - intros Wide NoSel NonEmpty.
    destruct (sortedRooms c) as [|r0 rest] eqn:S.
    + pose proof (sortedRooms_perm c) as P. rewrite S in P.
      apply Permutation_sym, Permutation_nil in P. now elim NonEmpty.
    + exists r0, rest. 
      assert (R : rooms (commit st (updateRooms c st st)) = r0 :: rest)
        by now rewrite rooms_commit, rooms_updateRooms.
      split; [exact R|].
      split; [|now apply sortedRooms_head with (rest := rest)].
      rewrite activeRoomId_commit. unfold updateRooms.
      now rewrite S, Wide, NoSel.
Qed.

Lemma onRoom_auto_select_witness :
  let fresh := setActiveRoomId None Sample.state in
  isMobile fresh = false /\ JS.truthy (activeRoomId fresh) = false /\
  Client.getRooms Sample.store <> [] /\
  exists r0 rest,
    rooms (onRoom Sample.store fresh) = r0 :: rest /\
    activeRoomId (onRoom Sample.store fresh) = Some (Room.roomId r0) /\
    In r0 (Client.getRooms Sample.store) /\
    forall r, In r (Client.getRooms Sample.store) ->
              (lastActive r <= lastActive r0)%Z.
Proof.
  intros fresh. split; [reflexivity|]. split; [reflexivity|].
  split; [discriminate|].
  apply (proj2 (onRoom_auto_select Sample.store fresh));
    [reflexivity | reflexivity | discriminate].
Defined.

(* ------------------------------------------------------------------ *)
(** ** Typing display after a room switch                               *)
(* ------------------------------------------------------------------ *)

Lemma typingUsers_activeRoomEffect (st : AppState) :
  typingUsers (activeRoomEffect st)
  = match activeRoom st with
    | Some room => typingNames (typingMembersOf room) (myUserId st)
    | None => []
    end.
Proof.
  unfold activeRoomEffect, activeRoom.
  destruct (client st) as [c|]; [|reflexivity].
  destruct (activeRoomId st) as [id|]; [|reflexivity].
  destruct (JS.truthyStr id); [|reflexivity].
  now destruct (Client.getRoom c id).
Qed.

Lemma typingUsers_updateTypingForActive_read
  (c : Client.t) (cap st : AppState) :
  typingUsers (updateTypingForActive c cap st)
  = match activeRoomId cap with
    | Some id =>
        if JS.truthyStr id
        then match Client.getRoom c id with
             | Some room => typingNames (typingMembersOf room) (myUserId cap)
             | None => []
             end
        else []
    | None => []
    end.
Proof.
  unfold updateTypingForActive.
  destruct (activeRoomId cap) as [id|]; [|reflexivity]. simpl.
  destruct (JS.truthyStr id); [|reflexivity]. simpl.
  now destruct (Client.getRoom c id).
Qed.

Lemma myUserId_activeRoomEffect (st : AppState) :
  myUserId (activeRoomEffect st) = myUserId st.
Proof.
  unfold activeRoomEffect. now destruct (activeRoom st), (client st).
Qed.

(** The typing display a room switch leaves obeys the same bounds as the
    one a typing notification computes: at most 3 names, never the local
    user's id, nothing when the room is unknown; and a typing notification
    for the new room right after the switch, read from the same client
    store, changes nothing in it. *)
Theorem changeActiveRoom_typing (st : AppState) (sel : option string) :
  sameSelection (activeRoomId st) sel = false ->
  let switched := changeActiveRoom sel st in
  List.length (typingUsers switched) <= 3 /\
  (forall u, myUserId st = Some u -> ~ In u (typingUsers switched)) /\
  (activeRoom (setActiveRoomId sel st) = None -> typingUsers switched = []) /\
  (forall c room, client st = Some c -> sel = Some (Room.roomId room) ->
     typingUsers (onTyping c (Some room) switched) = typingUsers switched).
Proof.
  intros Hsel switched.
  assert (E : switched = activeRoomEffect (setActiveRoomId sel st))
    by now apply changeActiveRoom_changed.
  assert (T : typingUsers switched
              = match activeRoom (setActiveRoomId sel st) with
                | Some room => typingNames (typingMembersOf room) (myUserId st)
                | None => []
                end)
    by (rewrite E, typingUsers_activeRoomEffect; reflexivity).
  split; [|split; [|split]].
  - rewrite T. destruct (activeRoom _); [apply typingNames_length|simpl; lia].
  - intros u Hu I. rewrite T in I.
    destruct (activeRoom _); [|exact I].
    apply typingNames_In in I as (_ & N & _). congruence.
  - intros N. now rewrite T, N.
  - intros c room Cl ->.
    assert (A : activeRoomId switched = Some (Room.roomId room))
      by (rewrite E; apply activeRoomId_activeRoomEffect).
    unfold onTyping.
    rewrite (proj2 (otherRoom_false room (activeRoomId switched)) A).
    rewrite typingUsers_updateTypingForActive_read, A, T.
    unfold activeRoom. simpl. rewrite Cl.
    destruct (JS.truthyStr (Room.roomId room)); [|reflexivity].
    destruct (Client.getRoom c (Room.roomId room)); [|reflexivity].
    now rewrite E, myUserId_activeRoomEffect.
Qed.

Lemma changeActiveRoom_typing_witness :
  let back := changeActiveRoom None Sample.state in
  let switched := changeActiveRoom (Some "!a:example.org") back in
  sameSelection (activeRoomId back) (Some "!a:example.org") = false /\
  typingUsers switched = ["Alice"; "@bob:example.org"] /\
  typingUsers (onTyping Sample.store (Some Sample.roomA) switched)
  = typingUsers switched.
Proof.
  intros back switched. split; [reflexivity|]. split; [reflexivity|].
  destruct (changeActiveRoom_typing back (Some "!a:example.org") eq_refl)
    as (_ & _ & _ & H).
  exact (H Sample.store Sample.roomA eq_refl eq_refl).
Defined.

(* ------------------------------------------------------------------ *)
(** ** login                                                            *)
(* ------------------------------------------------------------------ *)

Lemma normalizeHomeserver_blank (hs : option string) :
  JS.truthyStr (normalizeHomeserver hs) = false <->
  JS.trim (JS.orEmpty hs) = "".
Proof.
  destruct (normalizeHomeserver_cases hs)
    as [[V ->]|[(N & S & ->)|(N & S & ->)]].
  - now split.
  - destruct (JS.trim (JS.orEmpty hs)); [now elim N|].
    split; intros H; discriminate H.
  - split; intros H; [discriminate H | now elim N].
Qed.

(** A login that fails throws to its caller and calls no setter, so that
    neither the persisted nor the in-memory session changes.  With a blank
    homeserver it fails with "Homeserver is empty" before any request is
    sent; when the server rejects, the one request sent went to the
    normalized homeserver and the server's message is what is thrown. *)
Theorem login_failure (homeserver : option string)
  (username password : string) (answer : Settled LoginResult)
  (between : AppState -> AppState) (st : AppState) :
  let result := login homeserver username password answer between st in
  (JS.trim (JS.orEmpty homeserver) = "" ->
   result = ([], Some "Homeserver is empty", st)) /\
  (forall m, JS.trim (JS.orEmpty homeserver) <> "" ->
             answer = RejectedWith m ->
             result = ([PasswordLogin (normalizeHomeserver homeserver)
                          username password], Some m, between st)) /\
  (snd (fst result) <> None ->
   snd result = st \/ snd result = between st).
Proof.
  intros result. unfold result, login.
  destruct (JS.truthyStr (normalizeHomeserver homeserver)) eqn:T; simpl.
  - assert (N : JS.trim (JS.orEmpty homeserver) <> "").
    { intros B. apply normalizeHomeserver_blank in B. congruence. }
    split; [intros B; now elim N|]. split.
    + intros m _ ->. reflexivity.
    + destruct answer; simpl; [intros H; now elim H | now right].
  - split; [reflexivity|]. split; [|now left].
    intros m N. apply normalizeHomeserver_blank in T. now elim N.
Qed.

Lemma login_failure_witness :
  JS.trim (JS.orEmpty (Some "  ")) = "" /\
  login (Some "  ") "alice" "secret"
    (Fulfilled {| access_token := "t"; user_id := Some Sample.alice;
                  device_id := None |})
    (fun s => s) (initialState None false)
  = ([], Some "Homeserver is empty", initialState None false).
Proof.
  split; [reflexivity|].
  apply (proj1 (login_failure (Some "  ") "alice" "secret" _ (fun s => s)
                  (initialState None false))).
  reflexivity.
Defined.

(** A login the server accepts sends one password request, to the
    normalized homeserver, and throws nothing; it leaves the persisted and
    the in-memory session both equal to the session built from the answer,
    whose base URL is that homeserver, not empty and with a scheme; no
    other cell of the state it finds is touched. *)
Theorem login_success (homeserver : option string)
  (username password : string) (res : LoginResult)
  (between : AppState -> AppState) (st : AppState) :
  JS.trim (JS.orEmpty homeserver) <> "" ->
  let result :=
    login homeserver username password (Fulfilled res) between st in
  let s := {| baseUrl := normalizeHomeserver homeserver;
              accessToken := access_token res;
              userId := user_id res; deviceId := device_id res |} in
  fst result
  = ([PasswordLogin (normalizeHomeserver homeserver) username password],
     None) /\
  stored (snd result) = Some s /\ session (snd result) = Some s /\
  (JS.startsWith (baseUrl s) "http://" = true \/
   JS.startsWith (baseUrl s) "https://" = true) /\
  snd result = setSession (Some s) (saveSession s (between st)) /\
  client (snd result) = client (between st) /\
  rooms (snd result) = rooms (between st) /\
  activeRoomId (snd result) = activeRoomId (between st) /\
  events (snd result) = events (between st).
Proof.
  intros N result s. unfold result, login.
  destruct (JS.truthyStr (normalizeHomeserver homeserver)) eqn:T; simpl.
  - repeat split.
    destruct (normalizeHomeserver_cases homeserver)
      as [[V _]|[(_ & S & ->)|(_ & _ & ->)]].
    + now elim N.
    + now apply orb_true_iff.
    + right. apply (JSFacts.prefix_app "https://").
  - apply normalizeHomeserver_blank in T. now elim N.
Qed.

Lemma login_success_witness :
  let res := {| access_token := "t"; user_id := Some Sample.alice;
                device_id := Some "DEVICE" |} in
  let result := login (Some "example.org") "alice" "secret" (Fulfilled res)
                  (fun s => s) (initialState None false) in
  JS.trim (JS.orEmpty (Some "example.org")) <> "" /\
  fst result = ([PasswordLogin "https://example.org" "alice" "secret"], None)
  /\ stored (snd result) = session (snd result).
Proof.
  intros res result. split; [discriminate|].
  destruct (login_success (Some "example.org") "alice" "secret" res
              (fun s => s) (initialState None false) ltac:(discriminate))
    as (E & St & Se & _).
  split; [exact E | exact (eq_trans St (eq_sym Se))].
Defined.

(* ------------------------------------------------------------------ *)
(** ** send                                                             *)
(* ------------------------------------------------------------------ *)

(** Sending is a no-op without a client, without an active room or with a
    blank composer: nothing is transmitted, nothing is thrown and the
    composer keeps its text. *)
Theorem send_noop (txnId : string) (typingStop delivery : Completion)
  (between : AppState -> AppState) (st : AppState) :
  client st = None \/ JS.truthy (activeRoomId st) = false \/
  JS.trim (message st) = "" ->
  send txnId typingStop delivery between st = ([], Normal, st).
Proof.
  intros H. unfold send.
  destruct (client st); [|reflexivity].
  destruct (JS.truthy (activeRoomId st)); [|reflexivity]. simpl.
  destruct H as [H|[H|H]]; [discriminate H | discriminate H |].
  now rewrite H.
Qed.

Lemma send_noop_witness :
  let blank := setMessage "   " Sample.state in
  JS.trim (message blank) = "" /\
  send "txn1" Normal Normal (fun s => s) blank = ([], Normal, blank).
Proof.
  intros blank. split; [reflexivity|].
  apply send_noop. right. right. reflexivity.
Defined.

(** With a client, an active room and a composer that is not blank, [send]
    first tells the room that typing stopped and then submits the trimmed
    text, in this order and whether or not the typing signal failed.  The
    body submitted is never blank and carries no white space around it.
    The composer is cleared exactly when the submission succeeded; when it
    failed the error reaches the caller and the composer keeps its text. *)
Theorem send_delivers (txnId : string) (typingStop delivery : Completion)
  (between : AppState -> AppState) (st : AppState) (c : Client.t)
  (room : string) :
  client st = Some c -> activeRoomId st = Some room -> room <> "" ->
  JS.trim (message st) <> "" ->
  let result := send txnId typingStop delivery between st in
  fst (fst result)
  = [TypingSignal room false None;
     TextMessage room (JS.trim (message st)) txnId] /\
  JS.trim (JS.trim (message st)) = JS.trim (message st) /\
  snd (fst result) = delivery /\
  (delivery = Normal -> snd result = setMessage "" (between st)) /\
  (delivery = Throw -> snd result = between st).
Proof.
  intros Cl A R T result. unfold result, send. rewrite Cl, A. simpl.
  destruct room; [now elim R|]. simpl.
  destruct (JS.trim (message st)) eqn:M; [now elim T|]. simpl.
  rewrite <- M, JSFacts.trim_idem.
  destruct typingStop, delivery; simpl; repeat split;
    intros H; discriminate H.
Qed.

Lemma send_delivers_witness :
  let st := setMessage " hello " Sample.state in
  let result := send "txn1" Throw Normal (fun s => s) st in
  JS.trim (message st) <> "" /\
  fst (fst result)
  = [TypingSignal "!a:example.org" false None;
     TextMessage "!a:example.org" "hello" "txn1"] /\
  message (snd result) = "".
Proof.
  intros st result. split; [discriminate|].
  destruct (send_delivers "txn1" Throw Normal (fun s => s) st Sample.store
              "!a:example.org" eq_refl eq_refl ltac:(discriminate)
              ltac:(discriminate)) as (E & _ & _ & Ok & _).
  split; [exact E|]. unfold result. now rewrite (Ok eq_refl).
Defined.

(* ------------------------------------------------------------------ *)
(** ** startDM                                                          *)
(* ------------------------------------------------------------------ *)

Lemma normalizeMxId_blank (input my : option string) :
  JS.truthyStr (normalizeMxId input my) = false <->
  JS.trim (JS.orEmpty input) = "".
Proof.
  split.
  - intros H. destruct (JS.trim (JS.orEmpty input)) eqn:V; [reflexivity|].
    exfalso. unfold normalizeMxId in H. rewrite V in H.
    cbn [JS.truthyStr negb] in H.
    destruct (JS.startsWith (String a s) "@" && JS.includes (String a s) ":");
      simpl in H; discriminate H.
  - intros V. now rewrite (normalizeMxId_empty input my V).
Qed.

Lemma activeRoomEffect_dialog (st : AppState) :
  newChatOpen (activeRoomEffect st) = newChatOpen st /\
  newChatInput (activeRoomEffect st) = newChatInput st /\
  newChatBusy (activeRoomEffect st) = newChatBusy st.
Proof.
  unfold activeRoomEffect. now destruct (activeRoom st), (client st).
Qed.

Lemma commit_dialog (before after : AppState) :
  newChatOpen (commit before after) = newChatOpen after /\
  newChatInput (commit before after) = newChatInput after /\
  newChatBusy (commit before after) = newChatBusy after.
Proof.
  unfold commit. destruct (sameSelection _ _);
    [now repeat split | apply activeRoomEffect_dialog].
Qed.





(** When the room is created, [startDM] closes the dialog, empties its
    input and releases the busy flag.  The room the answer names becomes
    the active room, and when that changes the selection the event
    sequence is read afresh from it, empty as long as the client does not
    know the room; an answer that names no room leaves selection and
    events as they are. *)
Theorem startDM_success (res : option CreateRoomResult)
  (between : AppState -> AppState) (st : AppState) (c : Client.t) :
  client st = Some c -> JS.truthy (myUserId st) = true ->
  JS.trim (newChatInput st) <> "" ->
  let found := between (setNewChatBusy true st) in
  let final := snd (startDM (Fulfilled res) between st) in
  newChatBusy final = false /\ newChatOpen final = false /\
  newChatInput final = "" /\
  (forall id, createdRoomId res = Some id -> id <> "" ->
     activeRoomId final = Some id /\
     (activeRoomId found <> Some id ->
      events final
      = match activeRoom (setActiveRoomId (Some id) found) with
        | Some room => Room.liveEvents room
        | None => []
        end)) /\
  (JS.truthy (createdRoomId res) = false ->
   activeRoomId final = activeRoomId found /\ events final = events found).
Proof.
  intros Cl U N found final. unfold final, startDM. rewrite Cl, U. simpl.
  destruct (JS.truthyStr (normalizeMxId (Some (newChatInput st))
                            (myUserId st))) eqn:T; simpl.
  2: { apply normalizeMxId_blank in T. now elim N. }
  fold found.
  set (closed := setNewChatInput "" (setNewChatOpen false found)).
  set (opened := if JS.truthy (createdRoomId res)
                 then setActiveRoomId (createdRoomId res) closed
                 else closed).
  destruct (commit_dialog found (setNewChatBusy false opened))
    as (O & I & B).
  assert (Fields : newChatOpen opened = false /\ newChatInput opened = "").
  { unfold opened. now destruct (JS.truthy (createdRoomId res)). }
  split; [now rewrite B|].
  split; [rewrite O; apply Fields|].
  split; [rewrite I; apply Fields|].
  split.
  - intros id E Ne. unfold opened. rewrite E.
    assert (Tr : JS.truthy (Some id) = true)
      by (destruct id; [now elim Ne | reflexivity]).
    rewrite Tr. split; [now rewrite activeRoomId_commit|].
    intros Ch. unfold commit. simpl.
    destruct (sameSelection (activeRoomId found) (Some id)) eqn:S.
    + apply sameSelection_eq in S. now elim Ch.
    + now rewrite events_activeRoomEffect.
  - intros F. unfold opened. rewrite F.
    now rewrite commit_same by reflexivity.
Qed.

Lemma startDM_success_witness :
  let st := setNewChatOpen true (setNewChatInput "bob" Sample.state) in
  let res := Some {| room_id := Some "!new:example.org";
                     camelRoomId := None |} in
  let final := snd (startDM (Fulfilled res) (fun s => s) st) in
  JS.trim (newChatInput st) <> "" /\
  newChatOpen final = false /\
  activeRoomId final = Some "!new:example.org" /\
  events final = [].
Proof.
  intros st res final. split; [discriminate|].
  destruct (startDM_success res (fun s => s) st Sample.store
              eq_refl eq_refl ltac:(discriminate))
    as (_ & O & _ & Sel & _).
  destruct (Sel "!new:example.org" eq_refl ltac:(discriminate)) as [A E].
  split; [exact O|]. split; [exact A|].
  exact (E ltac:(discriminate)).
Defined.

(* ------------------------------------------------------------------ *)
(** ** Composer: typing signals and the stop timer                      *)
(* ------------------------------------------------------------------ *)

Lemma sendTyping_refs (isTyping : bool) (cap : AppState) (cm : Composer) :
  typingTimer (snd (sendTyping isTyping cap cm)) = typingTimer cm /\
  pending (snd (sendTyping isTyping cap cm)) = pending cm /\
  nextHandle (snd (sendTyping isTyping cap cm)) = nextHandle cm.
Proof.
  unfold sendTyping. destruct (client cap); [|now repeat split].
  destruct (negb (JS.truthy (activeRoomId cap))); [now repeat split|].
  destruct isTyping; [destruct (negb (typingActive cm))|]; now repeat split.
Qed.

Lemma sendTyping_to_room (isTyping : bool) (cap : AppState) (cm : Composer)
  (c : Client.t) (room : string) :
  client cap = Some c -> activeRoomId cap = Some room -> room <> "" ->
  fst (sendTyping isTyping cap cm)
  = [TypingSignal room isTyping (if isTyping then Some 4000%Z else None)] /\
  typingActive (snd (sendTyping isTyping cap cm)) = isTyping.
Proof.
  intros Cl A R. unfold sendTyping. rewrite Cl, A. simpl.
  destruct room; [now elim R|]. simpl.
  destruct isTyping; [|now split].
  destruct (typingActive cm) eqn:T; simpl; now split.
Qed.

Lemma clearTypingTimer_empties (cm : Composer) :
  timersOwned cm ->
  pending (clearTypingTimer cm) = [] /\
  nextHandle (clearTypingTimer cm) = nextHandle cm /\
  typingActive (clearTypingTimer cm) = typingActive cm.
Proof.
  intros (Pos & Len & Own). unfold clearTypingTimer.
  destruct (pending cm) as [|t [|t' rest]] eqn:P.
  - destruct (typingTimer cm) as [h|]; [|now rewrite P].
    destruct (Nat.eqb h 0); [now rewrite P|]. simpl. now rewrite P.
  - destruct (Own t (or_introl eq_refl)) as [Ty [H0 _]]. rewrite Ty.
    destruct (Nat.eqb (handle t) 0) eqn:Z; [apply Nat.eqb_eq in Z; lia|].
    simpl. rewrite P. simpl. now rewrite Nat.eqb_refl.
  - simpl in Len. lia.
Qed.

Lemma setTypingTimer_owned (d : Z) (cap : AppState) (cm : Composer) :
  0 < nextHandle cm -> pending cm = [] ->
  timersOwned (setTypingTimer d cap cm) /\
  pending (setTypingTimer d cap cm)
  = [{| handle := nextHandle cm; delay := d; captured := cap |}].
Proof.
  intros Pos Pe. unfold timersOwned, setTypingTimer. simpl. rewrite Pe. simpl.
  split; [|reflexivity].
  split; [lia|]. split; [lia|].
  intros t [<-|[]]. simpl. split; [reflexivity | lia].
Qed.

Lemma sendTyping_owned (isTyping : bool) (cap : AppState) (cm : Composer) :
  timersOwned cm -> timersOwned (snd (sendTyping isTyping cap cm)).
Proof.
  intros H. destruct (sendTyping_refs isTyping cap cm) as (Ty & Pe & Ne).
  unfold timersOwned. now rewrite Ty, Pe, Ne.
Qed.

Lemma rearm_owned (d : Z) (cap : AppState) (cm : Composer) :
  timersOwned cm ->
  timersOwned (setTypingTimer d cap (clearTypingTimer cm)).
Proof.
  intros H. destruct (clearTypingTimer_empties cm H) as (Pe & Ne & _).
  apply setTypingTimer_owned; [rewrite Ne; apply H | exact Pe].
Qed.

(** What the reachable composers have in common. *)
Lemma composer_timers_shape (cm : Composer) :
  composerReachable cm -> timersOwned cm.
Proof.
  induction 1 as [|cm cm' _ IH Step].
  - unfold timersOwned. simpl. split; [lia|]. split; [lia | intros t []].
  - destruct Step as [next st cm | h cm].
    + unfold onComposerChange.
      destruct (negb (JS.truthyStr (JS.trim next))); simpl.
      * now apply rearm_owned.
      * destruct (sendTyping true st cm) as [sent cm1] eqn:S. simpl.
        apply rearm_owned.
        pose proof (sendTyping_owned true st cm IH) as O.
        now rewrite S in O.
    + unfold fireTimer.
      destruct (find (fun t => Nat.eqb (handle t) h) (pending cm)) as [t|];
        [|exact IH].
      apply sendTyping_owned.
      destruct IH as (Pos & Len & Own). unfold timersOwned. simpl.
      split; [exact Pos|]. split.
      * pose proof (filter_length_le
                      (fun t0 => negb (Nat.eqb (handle t0) h)) (pending cm)).
        lia.
      * intros t0 I. apply filter_In in I as [I _]. now apply Own.
Qed.

(** At most one stop-typing timer is pending at any time, and it is the one
    the composer holds the handle of: every composer change cancels the
    timer before it sets the next. *)
Theorem composer_single_timer (cm : Composer) :
  composerReachable cm ->
  List.length (pending cm) <= 1 /\
  forall t, In t (pending cm) -> typingTimer cm = Some (handle t).
Proof.
  intros R. destruct (composer_timers_shape cm R) as (_ & Len & Own).
  split; [exact Len|]. intros t I. now destruct (Own t I).
Qed.

Lemma composer_single_timer_witness :
  let c1 := snd (snd (onComposerChange "h" (Sample.state, initialComposer))) in
  let c2 := snd (snd (onComposerChange "hi" (Sample.state, c1))) in
  composerReachable c2 /\ List.length (pending c2) <= 1.
Proof.
  intros c1 c2.
  assert (R : composerReachable c2).
  { apply (composer_next c1 c2).
    - apply (composer_next initialComposer c1);
        [apply composer_mount | apply composer_change].
    - apply composer_change. }
  split; [exact R | apply (composer_single_timer c2 R)].
Defined.

Lemma rearm_fires (d : Z) (st : AppState) (cm : Composer) (c : Client.t)
  (room : string) :
  timersOwned cm ->
  client st = Some c -> activeRoomId st = Some room -> room <> "" ->
  let cm' := setTypingTimer d st (clearTypingTimer cm) in
  exists t,
    pending cm' = [t] /\ typingTimer cm' = Some (handle t) /\
    delay t = d /\
    fst (fireTimer (handle t) cm') = [TypingSignal room false None] /\
    pending (snd (fireTimer (handle t) cm')) = [] /\
    typingActive (snd (fireTimer (handle t) cm')) = false.
Proof.
  intros O Cl A Ne cm'.
  destruct (clearTypingTimer_empties cm O) as (Pe & Nh & _).
  destruct (setTypingTimer_owned d st (clearTypingTimer cm)) as [_ P];
    [rewrite Nh; apply O | exact Pe |].
  fold cm' in P.
  exists {| handle := nextHandle (clearTypingTimer cm); delay := d;
            captured := st |}.
  split; [exact P|]. split; [reflexivity|]. split; [reflexivity|].
  unfold fireTimer. rewrite P. cbn [find handle]. rewrite Nat.eqb_refl.
  cbn [captured].
  destruct (sendTyping_to_room false st
              (clearTimeout (nextHandle (clearTypingTimer cm)) cm')
              c room Cl A Ne) as [E T].
  destruct (sendTyping_refs false st
              (clearTimeout (nextHandle (clearTypingTimer cm)) cm'))
    as (_ & Pq & _).
  split; [exact E|]. split; [|exact T].
  rewrite Pq. unfold clearTimeout. cbn [pending]. rewrite P.
  cbn [filter handle]. now rewrite Nat.eqb_refl.
Qed.

(** A composer change in an open room stores the new text.  Blank text
    transmits nothing at once and sets the stop timer to 200 ms; any other
    text transmits "typing" with an expiry of 4000 ms and sets the timer to
    2200 ms.  The timer set is then the only one pending, and when it fires
    it transmits "stopped typing" to the room the text was typed in and
    leaves no timer pending. *)
Theorem onComposerChange_signals (next : string) (st : AppState)
  (cm : Composer) (c : Client.t) (room : string) :
  composerReachable cm ->
  client st = Some c -> activeRoomId st = Some room -> room <> "" ->
  let out := onComposerChange next (st, cm) in
  let cm' := snd (snd out) in
  message (fst (snd out)) = next /\
  (JS.trim next = "" -> fst out = []) /\
  (JS.trim next <> "" ->
   fst out = [TypingSignal room true (Some 4000%Z)] /\
   typingActive cm' = true) /\
  exists t,
    pending cm' = [t] /\ typingTimer cm' = Some (handle t) /\
    delay t = (if negb (JS.truthyStr (JS.trim next))
               then 200%Z else 2200%Z) /\
    fst (fireTimer (handle t) cm') = [TypingSignal room false None] /\
    pending (snd (fireTimer (handle t) cm')) = [] /\
    typingActive (snd (fireTimer (handle t) cm')) = false.
Proof.
  intros R Cl A Ne out cm'.
  pose proof (composer_timers_shape cm R) as Shape.
  unfold cm', out, onComposerChange.
  destruct (JS.trim next) as [|ch rest] eqn:T; cbn [JS.truthyStr negb].
  - cbn [fst snd]. split; [reflexivity|]. split; [reflexivity|].
    split; [intros H; now elim H|].
    apply (rearm_fires 200%Z st cm c room Shape Cl A Ne).
  - destruct (sendTyping true st cm) as [sent cm1] eqn:S. cbn [fst snd].
    destruct (sendTyping_to_room true st cm c room Cl A Ne) as [E Ty].
    rewrite S in E, Ty. cbn [fst snd] in E, Ty.
    pose proof (sendTyping_owned true st cm Shape) as O1.
    rewrite S in O1. cbn [snd] in O1.
    split; [reflexivity|]. split; [intros H; discriminate H|].
    split.
    + intros _. split; [exact E|].
      destruct (clearTypingTimer_empties cm1 O1) as (_ & _ & K).
      cbn [setTypingTimer typingActive]. now rewrite K.
    + apply (rearm_fires 2200%Z st cm1 c room O1 Cl A Ne).
Qed.

Lemma onComposerChange_signals_witness :
  let out := onComposerChange "hi" (Sample.state, initialComposer) in
  composerReachable initialComposer /\
  message (fst (snd out)) = "hi" /\
  fst out = [TypingSignal "!a:example.org" true (Some 4000%Z)].
Proof.
  intros out. split; [apply composer_mount|].
  destruct (onComposerChange_signals "hi" Sample.state initialComposer
              Sample.store "!a:example.org" composer_mount eq_refl eq_refl
              ltac:(discriminate)) as (M & _ & Sent & _).
  split; [exact M|]. apply (Sent ltac:(discriminate)).
Defined.

(* ------------------------------------------------------------------ *)
(** ** ChatView: messages shown, read receipt, sender names             *)
(* ------------------------------------------------------------------ *)

Lemma find_append {A : Type} (p : A -> bool) (l1 l2 : list A) :
  find p (l1 ++ l2)%list
  = match find p l1 with Some x => Some x | None => find p l2 end.
Proof.
  induction l1 as [|a l1 IH]; [reflexivity|]. simpl.
  now destruct (p a).
Qed.

(** Searching the reversed list finds the last match. *)
Lemma find_rev_last {A : Type} (p : A -> bool) (l : list A) (x : A) :
  find p (rev l) = Some x ->
  exists pre post, l = (pre ++ x :: post)%list /\ p x = true /\
                   forall y, In y post -> p y = false.
Proof.
  induction l as [|a l IH]; [discriminate|]. simpl.
  rewrite find_append. destruct (find p (rev l)) as [y|] eqn:F.
  - intros E. injection E as ->.
    destruct (IH eq_refl) as (pre & post & -> & Px & Post).
    now exists (a :: pre), post.
  - simpl. destruct (p a) eqn:Pa; [|discriminate].
    intros E. injection E as ->.
    exists [], l. repeat split; [exact Pa|].
    intros y I. apply (find_none _ _ F). now apply in_rev in I.
Qed.

Lemma find_rev_some {A : Type} (p : A -> bool) (l : list A) (x : A) :
  In x l -> p x = true -> exists y, find p (rev l) = Some y.
Proof.
  intros I Px. destruct (find p (rev l)) as [y|] eqn:F; [now exists y|].
  apply in_rev in I. rewrite (find_none _ _ F x I) in Px. discriminate Px.
Qed.

Lemma msgEvents_In (msgtype : MatrixEvent -> option string)
  (evs : list MatrixEvent) (e : MatrixEvent) :
  In e (msgEvents msgtype evs) <->
  In e evs /\ isRoomMessage e = true /\ hasText msgtype e = true.
Proof. unfold msgEvents. rewrite !filter_In. tauto. Qed.

(** The read receipt goes to the latest message of somebody else.  The
    effect sends nothing, or one receipt; its event is a message of the
    event sequence whose sender is known and is not the local user, and
    every message shown after it is the local user's own or has no
    sender.  It sends nothing when there is no client or no room, or when
    no message shown comes from somebody else; and with a client that has
    [sendReadReceipt], a room and such a message, it does send. *)
Theorem readReceipt_latest (msgtype : MatrixEvent -> option string)
  (canReadReceipt canReceipt : bool) (st : AppState) :
  let sent := readReceiptEffect msgtype canReadReceipt canReceipt st in
  let shown := msgEvents msgtype (events st) in
  (sent = [] \/
   exists latest pre post,
     (sent = [ReadReceipt latest] \/ sent = [Receipt latest "m.read"]) /\
     shown = (pre ++ latest :: post)%list /\
     In latest (events st) /\ isRoomMessage latest = true /\
     (exists s, getSender latest = Some s /\ s <> "" /\
                myUserId st <> Some s) /\
     forall e, In e post -> fromSomeoneElse (myUserId st) e = false) /\
  (client st = None \/ activeRoom st = None \/
   (forall e, In e shown -> fromSomeoneElse (myUserId st) e = false) ->
   sent = []) /\
  (client st <> None -> activeRoom st <> None -> canReadReceipt = true ->
   (exists e, In e shown /\ fromSomeoneElse (myUserId st) e = true) ->
   exists latest, sent = [ReadReceipt latest]).
Proof.
  intros sent shown. unfold sent, readReceiptEffect. fold shown.
  unfold latestFromOthers. fold shown.
  split; [|split].
  - destruct (client st); [|now left].
    destruct (activeRoom st); [|now left].
    destruct shown as [|e0 rest] eqn:Sh; [now left|]. rewrite <- Sh.
    destruct (find (fromSomeoneElse (myUserId st)) (rev shown))
      as [latest|] eqn:F; [|now left].
    destruct (find_rev_last _ _ _ F) as (pre & post & E & P & Post).
    assert (I : In latest shown)
      by (rewrite E; apply in_or_app; right; now left).
    apply msgEvents_In in I as (Iev & Ty & _).
    assert (Sender : exists s, getSender latest = Some s /\ s <> "" /\
                               myUserId st <> Some s).
    { unfold fromSomeoneElse in P. apply andb_true_iff in P as [T N].
      destruct (getSender latest) as [s|]; [|discriminate T].
      exists s. split; [reflexivity|]. split.
      - intros ->. discriminate T.
      - intros M. unfold notMe in N. rewrite M in N. simpl in N.
        now rewrite String.eqb_refl in N. }
    destruct canReadReceipt; [|destruct canReceipt; [|now left]];
      right; exists latest, pre, post; repeat split; auto.
  - intros H.
    destruct (client st); [|reflexivity].
    destruct (activeRoom st); [|reflexivity].
    destruct H as [H|[H|H]]; [discriminate H | discriminate H|].
    destruct shown as [|e0 rest] eqn:Sh; [reflexivity|]. rewrite <- Sh in *.
    destruct (find (fromSomeoneElse (myUserId st)) (rev shown))
      as [latest|] eqn:F; [|reflexivity].
    apply find_some in F as [I P]. apply in_rev in I.
    rewrite (H latest I) in P. discriminate P.
  - intros Cl Ro -> (e & I & P).
    destruct (client st); [|now elim Cl].
    destruct (activeRoom st); [|now elim Ro].
    destruct shown as [|e0 rest] eqn:Sh; [destruct I|]. rewrite <- Sh in *.
    destruct (find_rev_some _ _ _ I P) as [y ->]. now exists y.
Qed.

(** At most the 400 latest messages are rendered: the rendered events are
    the tail of the messages shown, in their order, each of them a room
    message of the event sequence with a text type or a body; when at most
    400 messages are shown all of them are rendered. *)
Theorem renderedMessages_window (msgtype : MatrixEvent -> option string)
  (evs : list MatrixEvent) :
  List.length (renderedMessages msgtype evs) <= 400 /\
  (exists older,
     msgEvents msgtype evs
     = (older ++ renderedMessages msgtype evs)%list /\
     List.length older = List.length (msgEvents msgtype evs) - 400) /\
  (forall e, In e (renderedMessages msgtype evs) ->
             In e evs /\ isRoomMessage e = true /\ hasText msgtype e = true)
  /\ (List.length (msgEvents msgtype evs) <= 400 ->
      renderedMessages msgtype evs = msgEvents msgtype evs).
Proof.
  unfold renderedMessages, JSMore.arrayLast.
  set (shown := msgEvents msgtype evs).
  split; [rewrite length_skipn; lia|]. split; [|split].
  - exists (firstn (List.length shown - 400) shown).
    split; [now rewrite firstn_skipn|].
    rewrite length_firstn. lia.
  - intros e I. apply msgEvents_In. fold shown.
    rewrite <- (firstn_skipn (List.length shown - 400) shown).
    apply in_or_app. now right.
  - intros L. replace (List.length shown - 400) with 0 by lia. reflexivity.
Qed.

(** [senderDisplayName] answers the empty string exactly when there is no
    sender id; for a sender it answers the first non-empty of the member's
    name, raw display name and display name, and the id itself when the
    room, the lookup, the member or all three names are missing. *)
Theorem senderDisplayName_total (room : option Room.t)
  (getMember : option (string -> option Member.t))
  (senderId : option string) :
  (senderDisplayName room getMember senderId = "" <->
   JS.truthy senderId = false) /\
  (forall id, senderId = Some id -> id <> "" ->
     (room = None \/ getMember = None \/
      (forall lookup, getMember = Some lookup -> lookup id = None) ->
      senderDisplayName room getMember senderId = id) /\
     (forall r lookup m, room = Some r -> getMember = Some lookup ->
        lookup id = Some m ->
        senderDisplayName room getMember senderId
        = JS.orEmpty (JS.or (Member.name m)
                        (JS.or (Member.rawDisplayName m)
                           (JS.or (Member.displayName m) (Some id)))))).
Proof.
  split.
  - unfold senderDisplayName.
    destruct senderId as [[|ch id]|]; destruct room; simpl;
      try (split; [reflexivity | reflexivity]);
      try (split; intros H; discriminate H).
    destruct getMember as [lookup|]; [|split; intros H; discriminate H].
    destruct (lookup (String ch id)) as [m|];
      [|split; intros H; discriminate H].
    destruct m as [[[|c1 n1]|] [[|c2 n2]|] [[|c3 n3]|] u]; simpl;
      split; intros H; discriminate H.
  - intros id -> Ne.
    assert (T : JS.truthyStr id = true) by (destruct id; [now elim Ne|easy]).
    split.
    + intros H. unfold senderDisplayName.
      destruct room as [r|]; [|unfold JS.or; simpl; now rewrite T].
      simpl. rewrite T. simpl.
      destruct getMember as [lookup|].
      * destruct H as [H|[H|H]]; try discriminate H.
        rewrite (H lookup eq_refl). unfold JS.or. simpl. reflexivity.
      * unfold JS.or. simpl. reflexivity.
    + intros r lookup m -> -> L. unfold senderDisplayName. simpl.
      rewrite T. simpl. rewrite L.
      destruct m as [[[|c1 n1]|] [[|c2 n2]|] [[|c3 n3]|] u]; reflexivity.
Qed.

Lemma senderDisplayName_total_witness :
  senderDisplayName (Some Sample.roomA)
    (Some (fun _ => Some Sample.memberAlice)) (Some Sample.alice)
  = "Alice" /\
  senderDisplayName (Some Sample.roomA) None (Some Sample.alice)
  = Sample.alice.
Proof.
  destruct (senderDisplayName_total (Some Sample.roomA)
              (Some (fun _ => Some Sample.memberAlice)) (Some Sample.alice))
    as [_ H1].
  destruct (senderDisplayName_total (Some Sample.roomA) None
              (Some Sample.alice)) as [_ H2].
  split.
  - apply (proj2 (H1 Sample.alice eq_refl ltac:(discriminate))
             Sample.roomA (fun _ => Some Sample.memberAlice)
             Sample.memberAlice eq_refl eq_refl eq_refl).
  - apply (proj1 (H2 Sample.alice eq_refl ltac:(discriminate))).
    right. now left.
Defined.

Lemma readReceipt_latest_witness :
  let textOnly := fun _ : MatrixEvent => Some "m.text" in
  client Sample.state <> None /\ activeRoom Sample.state <> None /\
  exists latest,
    readReceiptEffect textOnly true false Sample.state = [ReadReceipt latest].
Proof.
  intros textOnly. split; [discriminate|]. split; [discriminate|].
  destruct (readReceipt_latest textOnly true false Sample.state)
    as (_ & _ & H).
  apply H; [discriminate | discriminate | reflexivity|].
  exists (Sample.text "$a1" "!a:example.org" "@bob:example.org" "see you").
  split; [now left | reflexivity].
Defined.

Lemma renderedMessages_window_witness :
  let textOnly := fun _ : MatrixEvent => Some "m.text" in
  List.length (msgEvents textOnly (Room.liveEvents Sample.roomB)) <= 400 /\
  renderedMessages textOnly (Room.liveEvents Sample.roomB)
  = msgEvents textOnly (Room.liveEvents Sample.roomB).
Proof.
  intros textOnly.
  assert (L : List.length
                (msgEvents textOnly (Room.liveEvents Sample.roomB)) <= 400)
    by (simpl; lia).
  split; [exact L|].
  destruct (renderedMessages_window textOnly (Room.liveEvents Sample.roomB))
    as (_ & _ & _ & H).
  exact (H L).
Defined.

(* ------------------------------------------------------------------ *)
(** ** What every handler keeps                                         *)
(* ------------------------------------------------------------------ *)

Lemma kept_by_frame (st st' : AppState) :
  client st' = client st -> activeRoomId st' = activeRoomId st ->
  events st' = events st -> stored st' = stored st ->
  session st' = session st -> typingUsers st' = typingUsers st ->
  clientWellFiled st /\ eventsOfActive st /\ stored st = session st /\
  List.length (typingUsers st) <= 3 ->
  clientWellFiled st' /\ eventsOfActive st' /\ stored st' = session st' /\
  List.length (typingUsers st') <= 3.
Proof.
  intros C A E S1 S2 T (Wf & Inv & Se & Ty).
  unfold clientWellFiled, eventsOfActive in *.
  rewrite C, A, E, S1, S2, T. auto.
Qed.

Lemma activeRoomEffect_session_typing (st : AppState) :
  stored (activeRoomEffect st) = stored st /\
  session (activeRoomEffect st) = session st /\
  List.length (typingUsers (activeRoomEffect st)) <= 3.
Proof.
  split; [|split].
  - unfold activeRoomEffect. now destruct (activeRoom st), (client st).
  - unfold activeRoomEffect. now destruct (activeRoom st), (client st).
  - rewrite typingUsers_activeRoomEffect.
    destruct (activeRoom st); [apply typingNames_length | simpl; lia].
Qed.

Lemma commit_session_typing (before after : AppState) :
  stored (commit before after) = stored after /\
  session (commit before after) = session after /\
  (List.length (typingUsers after) <= 3 ->
   List.length (typingUsers (commit before after)) <= 3).
Proof.
  unfold commit. destruct (sameSelection _ _); [now repeat split|].
  destruct (activeRoomEffect_session_typing after) as (S1 & S2 & T).
  now repeat split.
Qed.

Lemma updateRooms_session_typing (c : Client.t) (cap st : AppState) :
  stored (updateRooms c cap st) = stored st /\
  session (updateRooms c cap st) = session st /\
  typingUsers (updateRooms c cap st) = typingUsers st.
Proof.
  unfold updateRooms. destruct (sortedRooms c); [now repeat split|].
  now destruct (negb (isMobile cap) && negb (JS.truthy (activeRoomId cap))).
Qed.

Lemma updateTypingForActive_session_typing
  (c : Client.t) (cap st : AppState) :
  stored (updateTypingForActive c cap st) = stored st /\
  session (updateTypingForActive c cap st) = session st /\
  List.length (typingUsers (updateTypingForActive c cap st)) <= 3.
Proof.
  split; [|split].
  - unfold updateTypingForActive.
    destruct (negb (JS.truthy (activeRoomId cap))); [reflexivity|].
    now destruct (Client.getRoom c (JS.orEmpty (activeRoomId cap))).
  - unfold updateTypingForActive.
    destruct (negb (JS.truthy (activeRoomId cap))); [reflexivity|].
    now destruct (Client.getRoom c (JS.orEmpty (activeRoomId cap))).
  - rewrite typingUsers_updateTypingForActive_read.
    destruct (activeRoomId cap) as [id|]; [|simpl; lia].
    destruct (JS.truthyStr id); [|simpl; lia].
    destruct (Client.getRoom c id); [apply typingNames_length | simpl; lia].
Qed.

Lemma step_session_typing (st st' : AppState) :
  step st st' ->
  stored st = session st /\ List.length (typingUsers st) <= 3 ->
  stored st' = session st' /\ List.length (typingUsers st') <= 3.
Proof.
  intros Step [Se Ty]. destruct Step as
    [c st Wc | c st Wc | id st | c state st | c st
    | ev room back st Hev | c room st | how st0 st].
  - now split.
  - unfold clientReplaced.
    destruct (activeRoomEffect_session_typing (setClient (Some c) st))
      as (S1 & S2 & T).
    rewrite S1, S2. now split.
  - unfold changeActiveRoom.
    destruct (commit_session_typing st (setActiveRoomId id st))
      as (S1 & S2 & T).
    rewrite S1, S2. split; [exact Se | now apply T].
  - unfold onSync. destruct (String.eqb state "PREPARED"); [|now split].
    destruct (updateRooms_session_typing c st st) as (R1 & R2 & _).
    destruct (updateTypingForActive_session_typing c st (updateRooms c st st))
      as (U1 & U2 & U3).
    destruct (commit_session_typing st
                (updateTypingForActive c st (updateRooms c st st)))
      as (S1 & S2 & T).
    rewrite S1, S2, U1, U2, R1, R2. split; [exact Se | now apply T].
  - unfold onRoom.
    destruct (updateRooms_session_typing c st st) as (R1 & R2 & R3).
    destruct (commit_session_typing st (updateRooms c st st))
      as (S1 & S2 & T).
    rewrite S1, S2, R1, R2. split; [exact Se|]. apply T. now rewrite R3.
  - unfold onRoomTimeline. destruct back; [now split|].
    destruct room as [r|]; [|now split].
    destruct (otherRoom r (activeRoomId st)); now split.
  - unfold onTyping. destruct room as [r|]; [|now split].
    destruct (otherRoom r (activeRoomId st)); [now split|].
    destruct (updateTypingForActive_session_typing c st st) as (U1 & U2 & U3).
    rewrite U1, U2. now split.
  - unfold logout. destruct (logoutAttempt how st0) as [sent body].
    destruct body; simpl; split; try reflexivity; lia.
Qed.

(** What all reachable states have in common. *)
Lemma app_invariants (st : AppState) :
  appReachable st ->
  clientWellFiled st /\ eventsOfActive st /\ stored st = session st /\
  List.length (typingUsers st) <= 3.
Proof.
  induction 1 as
    [ loaded mobile
    | st st' _ IH Step
    | hs user pw answer called found _ IHc _ IHf
    | txn stop delivery called found _ IHc _ IHf
    | st _ IH
    | answer called found _ IHc _ IHf
    | next st cm _ IH
    | open st _ IH | v st _ IH | v st _ IH | mobile st _ IH ].
  - split; [intros c E; discriminate E|]. split; [reflexivity|].
    split; [reflexivity | simpl; lia].
  - destruct IH as (Wf & Inv & Se & Ty).
    destruct (step_preserves st st' Step (conj Wf Inv)) as [Wf' Inv'].
    destruct (step_session_typing st st' Step (conj Se Ty)) as [Se' Ty'].
    auto.
  - unfold login.
    destruct (negb (JS.truthyStr (normalizeHomeserver hs))); [exact IHc|].
    destruct answer as [res|m]; cbn [snd]; [|exact IHf].
    destruct IHf as (Wf & Inv & _ & Ty). auto.
  - unfold send. destruct (client called); [|exact IHc].
    destruct (negb (JS.truthy (activeRoomId called))); [exact IHc|].
    destruct (negb (JS.truthyStr (JS.trim (message called)))); [exact IHc|].
    destruct stop, delivery; cbn [tryCatchThen snd]; try exact IHf;
      apply (kept_by_frame found (setMessage "" found)); auto.
  - apply (kept_by_frame st (setNewChatBusy true st)); auto.
  - unfold startDM. destruct (client called); [|exact IHc].
    destruct (negb (JS.truthy (myUserId called))); [exact IHc|].
    destruct (negb (JS.truthyStr _)); [exact IHc|].
    destruct answer as [res|m]; cbn [snd].
    2: { apply (kept_by_frame found (setNewChatBusy false found)); auto. }
    set (opened := if JS.truthy (createdRoomId res)
                   then setActiveRoomId (createdRoomId res)
                          (setNewChatInput "" (setNewChatOpen false found))
                   else setNewChatInput "" (setNewChatOpen false found)).
    assert (K : client (setNewChatBusy false opened) = client found /\
                events (setNewChatBusy false opened) = events found /\
                stored (setNewChatBusy false opened) = stored found /\
                session (setNewChatBusy false opened) = session found /\
                typingUsers (setNewChatBusy false opened)
                = typingUsers found).
    { unfold opened. now destruct (JS.truthy (createdRoomId res)). }
    destruct K as (Kc & Ke & Ks & Kse & Kt).
    destruct IHf as (Wf & Inv & Se & Ty).
    assert (Wf' : clientWellFiled (setNewChatBusy false opened))
      by (unfold clientWellFiled; now rewrite Kc).
    destruct (commit_session_typing found (setNewChatBusy false opened))
      as (S1 & S2 & T).
    split; [|split; [|split]].
    + intros c E. rewrite commit_client in E. now apply Wf'.
    + now apply commit_belongs.
    + now rewrite S1, S2, Ks, Kse.
    + apply T. now rewrite Kt.
  - unfold onComposerChange.
    destruct (negb (JS.truthyStr (JS.trim next))); cbn [fst snd].
    + apply (kept_by_frame st (setMessage next st)); auto.
    + destruct (sendTyping true st cm). cbn [fst snd].
      apply (kept_by_frame st (setMessage next st)); auto.
  - apply (kept_by_frame st (setNewChatOpen open st)); auto.
  - apply (kept_by_frame st (setNewChatInput v st)); auto.
  - apply (kept_by_frame st (setQuery v st)); auto.
  - apply (kept_by_frame st (setIsMobile mobile st)); auto.
Qed.

(** In every state the app reaches once the effects of a render have run,
    through listeners and commands in any order and with any interleaving
    at the awaited calls, the event sequence holds events of the selected
    room only, and nothing while no room is selected.  A change of
    selection is committed first as a render that may still hold the
    events of the room selected before; the effects that run after that
    render establish the property again, and so does the active-room
    effect that runs once the new client is in place. *)
Theorem app_events_after_effects (st : AppState) :
  appReachable st ->
  eventsOfActive st /\
  (forall id, eventsOfActive (activeRoomEffect (setActiveRoomId id st))) /\
  (forall id c, storeWellFiled c ->
     eventsOfActive (effectsOfSelection c (setActiveRoomId id st)) /\
     eventsOfActive
       (activeRoomEffect (effectsOfSelection c (setActiveRoomId id st)))).
Proof.
  intros R. destruct (app_invariants st R) as (Wf & Inv & _).
  split; [exact Inv|].
  assert (E : forall id,
            eventsOfActive (activeRoomEffect (setActiveRoomId id st))).
  { intros id. apply activeRoomEffect_belongs. exact Wf. }
  split; [exact E|].
  intros id c Wc.
  assert (K : activeRoomId (effectsOfSelection c (setActiveRoomId id st))
              = activeRoomId (activeRoomEffect (setActiveRoomId id st)) /\
              events (effectsOfSelection c (setActiveRoomId id st))
              = events (activeRoomEffect (setActiveRoomId id st)) /\
              (client (effectsOfSelection c (setActiveRoomId id st)) = Some c
               \/ client (effectsOfSelection c (setActiveRoomId id st))
                  = client st)).
  { unfold effectsOfSelection, subscriptionEffect.
    destruct (session (activeRoomEffect (setActiveRoomId id st)));
      (split; [reflexivity|]); (split; [reflexivity|]);
      [now left | right; now rewrite client_activeRoomEffect]. }
  destruct K as (Ka & Ke & Kc).
  split.
  - specialize (E id). unfold eventsOfActive in *. now rewrite Ka, Ke.
  - apply activeRoomEffect_belongs. intros c' Cl.
    destruct Kc as [Kc|Kc]; rewrite Kc in Cl;
      [injection Cl as <-; exact Wc | now apply Wf].
Qed.

(** The persisted session and the session in memory agree in every state
    the app can reach: [login] writes both, [logout] clears both, and no
    other handler writes either. *)
Theorem app_session_persisted (st : AppState) :
  appReachable st -> stored st = session st.
Proof. intros R. now destruct (app_invariants st R) as (_ & _ & H & _). Qed.

(** The typing display never holds more than 3 names, in any state the app
    can reach. *)
Theorem app_typing_display_bounded (st : AppState) :
  appReachable st -> List.length (typingUsers st) <= 3.
Proof. intros R. now destruct (app_invariants st R) as (_ & _ & _ & H). Qed.

Lemma sample_reachable :
  appReachable
    (onRoom Sample.store
       (clientReplaced Sample.store (initialState (Some Sample.login) false))).
Proof.
  apply app_listener
    with (st := clientReplaced Sample.store
                  (initialState (Some Sample.login) false));
    [|apply step_room].
  apply app_listener with (st := initialState (Some Sample.login) false);
    [apply app_mount | apply step_client, sample_store_wellFiled].
Qed.

Lemma app_events_after_effects_witness :
  let st := onRoom Sample.store
              (clientReplaced Sample.store
                 (initialState (Some Sample.login) false)) in
  appReachable st /\ activeRoomId st = Some "!l:example.org" /\
  eventsOfActive st /\
  eventsOfActive (activeRoomEffect (setActiveRoomId (Some "!a:example.org") st)).
Proof.
  intros st. split; [exact sample_reachable|]. split; [reflexivity|].
  destruct (app_events_after_effects st sample_reachable) as (H & E & _).
  split; [exact H | exact (E (Some "!a:example.org"))].
Defined.

Lemma app_session_persisted_witness :
  let st := onRoom Sample.store
              (clientReplaced Sample.store
                 (initialState (Some Sample.login) false)) in
  appReachable st /\ stored st = session st.
Proof.
  intros st. split; [exact sample_reachable|].
  apply (app_session_persisted st sample_reachable).
Defined.

Lemma app_typing_display_bounded_witness :
  let st := onRoom Sample.store
              (clientReplaced Sample.store
                 (initialState (Some Sample.login) false)) in
  appReachable st /\ List.length (typingUsers st) <= 3.
Proof.
  intros st. split; [exact sample_reachable|].
  apply (app_typing_display_bounded st sample_reachable).
Defined.

(* ------------------------------------------------------------------ *)
(** ** Room registry: ties, and typing notifications                    *)
(* ------------------------------------------------------------------ *)

(** A refresh keeps rooms of equal last-activity timestamp in the order in
    which the client reports them. *)
Theorem updateRooms_stable (c : Client.t) (cap st : AppState) (k : Z) :
  filter (fun r => (lastActive r =? k)%Z) (rooms (updateRooms c cap st))
  = filter (fun r => (lastActive r =? k)%Z) (Client.getRooms c).
Proof. rewrite rooms_updateRooms. apply (sort_stable _ lastActive). Qed.

(** A typing notification for another room, or with no room, changes
    nothing; one for the active room changes the typing display and no
    other cell of the state. *)
Theorem onTyping_frame (c : Client.t) (room : option Room.t)
  (st : AppState) :
  onTyping c room st = setTypingUsers (typingUsers (onTyping c room st)) st
  /\
  (room = None -> onTyping c room st = st) /\
  (forall r, room = Some r -> activeRoomId st <> Some (Room.roomId r) ->
             onTyping c room st = st).
Proof.
  assert (Same : st = setTypingUsers (typingUsers st) st) by now destruct st.
  split; [|split].
  - unfold onTyping. destruct room as [r|]; [|exact Same].
    destruct (otherRoom r (activeRoomId st)); [exact Same|].
    unfold updateTypingForActive.
    destruct (negb (JS.truthy (activeRoomId st))); [reflexivity|].
    now destruct (Client.getRoom c (JS.orEmpty (activeRoomId st))).
  - now intros ->.
  - intros r -> N. unfold onTyping.
    destruct (otherRoom r (activeRoomId st)) eqn:O; [reflexivity|].
    now apply otherRoom_false in O.
Qed.

Lemma onTyping_frame_witness :
  onTyping Sample.store (Some Sample.roomB) Sample.state = Sample.state.
Proof.
  destruct (onTyping_frame Sample.store (Some Sample.roomB) Sample.state)
    as (_ & _ & H).
  apply (H Sample.roomB eq_refl). discriminate.
Defined.

(* ------------------------------------------------------------------ *)
(** ** normalizeMxId on a bare name                                     *)
(* ------------------------------------------------------------------ *)

(** For a local user id with exactly one [:] and a server behind it, a
    name typed without a server gets that server: the answer is [@], the
    name without its leading [@], [:] and everything behind the [:] of the
    local user id. *)
Theorem normalizeMxId_attaches_server (input : option string)
  (localpart server : string) :
  JS.trim (JS.orEmpty input) <> "" ->
  JS.includes (JS.trim (JS.orEmpty input)) ":" = false ->
  JS.includes localpart ":" = false -> JS.includes server ":" = false ->
  server <> "" ->
  normalizeMxId input (Some (localpart ++ ":" ++ server))
  = "@" ++ (if JS.startsWith (JS.trim (JS.orEmpty input)) "@"
            then JS.slice (JS.trim (JS.orEmpty input)) 1
            else JS.trim (JS.orEmpty input))
        ++ ":" ++ server /\
  textAfterColon (localpart ++ ":" ++ server) = Some server.
Proof.
  intros N NoColon L S Ne.
  destruct (myServerOf_single_colon localpart server L S Ne) as [M T].
  split; [|exact T].
  rewrite normalizeMxId_bare; [now rewrite M | exact N|].
  rewrite NoColon. apply andb_false_r.
Qed.

Lemma normalizeMxId_attaches_server_witness :
  JS.trim (JS.orEmpty (Some " @bob ")) <> "" /\
  normalizeMxId (Some " @bob ") (Some ("@alice" ++ ":" ++ "example.org"))
  = "@bob:example.org".
Proof.
  split; [discriminate|].
  apply (proj1 (normalizeMxId_attaches_server (Some " @bob ") "@alice"
                  "example.org" ltac:(discriminate) eq_refl eq_refl eq_refl
                  ltac:(discriminate))).
Defined.

(* ------------------------------------------------------------------ *)
(** ** RoomList: the preview line                                       *)
(* ------------------------------------------------------------------ *)

Lemma truncateMiddle_fitting (s : string) :
  String.length s <= 18 -> truncateMiddle (Some s) 18 = Some s.
Proof.
  intros L. unfold truncateMiddle.
  replace (Z.of_nat (String.length s) <=? 18)%Z with true
    by (symmetry; apply Z.leb_le; lia).
  now rewrite orb_true_r.
Qed.

(** The preview line of a room is empty exactly when its last message has
    no body that is a non-empty string.  Otherwise it is the body with a
    label in front: nothing when the sender is unknown, "You: " for the
    local user, and for any other sender the answer of [truncateMiddle]
    for the sender's display name and 18, which is the name itself when it
    fits and never longer than 18 characters, followed by ": ". *)
Theorem previewLine_label (me : option string) (r : Room.t)
  (lastSender : option string)
  (getMember : option (string -> option Member.t)) :
  (previewLine me r lastSender getMember = "" <-> bodyText r = "") /\
  (bodyText r <> "" ->
   (JS.truthy lastSender = false ->
    previewLine me r lastSender getMember = bodyText r) /\
   (forall s, lastSender = Some s -> s <> "" -> me = Some s ->
      previewLine me r lastSender getMember = "You: " ++ bodyText r) /\
   (forall s, lastSender = Some s -> s <> "" -> me <> Some s ->
      let name := senderDisplayName (Some r) getMember (Some s) in
      exists cut,
        truncateMiddle (Some name) 18 = Some cut /\
        String.length cut <= 18 /\
        (String.length name <= 18 -> cut = name) /\
        previewLine me r lastSender getMember
        = cut ++ ": " ++ bodyText r)).
Proof.
  unfold previewLine, bodyText.
  destruct (safeText (roomPreview r)) as [|b body] eqn:P.
  - split; [now split | intros N; now elim N].
  - cbn [JS.truthyStr]. split.
    + split; intros Z; [|discriminate Z].
      destruct lastSender as [[|ch s]|];
        cbn [JS.or JS.truthy JS.truthyStr JS.orEmpty] in Z;
        try discriminate Z.
      destruct (isMe me (String ch s)); [discriminate Z|].
      destruct (JS.orEmpty _); discriminate Z.
    + intros _. split; [|split].
      * intros F. destruct lastSender as [[|ch s]|];
          cbn [JS.or JS.truthy JS.truthyStr JS.orEmpty] in *;
          [reflexivity | discriminate F | reflexivity].
      * intros s -> Ne ->. destruct s as [|ch s]; [now elim Ne|].
        cbn [JS.or JS.truthy JS.truthyStr JS.orEmpty].
        unfold isMe. now rewrite String.eqb_refl.
      * intros s -> Ne NotMe. destruct s as [|ch s]; [now elim Ne|].
        cbn [JS.or JS.truthy JS.truthyStr JS.orEmpty].
        set (name := senderDisplayName (Some r) getMember
                       (Some (String ch s))).
        assert (M : isMe me (String ch s) = false).
        { unfold isMe. destruct me as [u|]; [|reflexivity].
          apply String.eqb_neq. intros E. apply NotMe. now rewrite E. }
        rewrite M.
        destruct (truncateMiddle_short name) as (cut & E & Len).
        exists cut. split; [exact E|]. split; [exact Len|]. split.
        -- intros Fit. rewrite (truncateMiddle_fitting name Fit) in E.
           now injection E.
        -- rewrite E. cbn [JS.orEmpty].
           now rewrite string_app_assoc.
Qed.

Lemma previewLine_label_witness :
  bodyText Sample.roomA <> "" /\
  previewLine (Some Sample.alice) Sample.roomA (Some Sample.alice) None
  = "You: see you" /\
  previewLine (Some Sample.alice) Sample.roomA
    (Some "@bartholomew:example.org") None
  = "@barthol...ple.org: see you" /\
  previewLine (Some Sample.alice) Stores.roomOdd
    (Some "@bob:example.org") None
  = "".
Proof.
  split; [discriminate|]. split; [|split].
  - destruct (previewLine_label (Some Sample.alice) Sample.roomA
                (Some Sample.alice) None) as [_ H].
    destruct (H ltac:(discriminate)) as (_ & You & _).
    exact (You Sample.alice eq_refl ltac:(discriminate) eq_refl).
  - destruct (previewLine_label (Some Sample.alice) Sample.roomA
                (Some "@bartholomew:example.org") None) as [_ H].
    destruct (H ltac:(discriminate)) as (_ & _ & Other).
    destruct (Other "@bartholomew:example.org" eq_refl ltac:(discriminate)
                ltac:(discriminate)) as (cut & E & _ & _ & L).
    injection E as <-. exact L.
  - destruct (previewLine_label (Some Sample.alice) Stores.roomOdd
                (Some "@bob:example.org") None) as [H _].
    apply (proj2 H). reflexivity.
Defined.
